(** * NH_WATER: the spatial analysis module (src/spatial-analysis.js)

    A shallow embedding of [SpatialAnalysis] and of the part of [CONFIG]
    it reads, followed by the properties of the aggregation, scoring,
    classification and ranking functions.

    Conventions of the embedding.
    - A JavaScript number is a rational, or NaN, or one of the two
      infinities ([num]).  A quotient is rounded as binary64 arithmetic
      rounds it ([binary64]: to the nearest number of 53 significant
      bits, a tie to the even one, with overflow to the infinities and
      gradual underflow down to 0), and so is the number read back from
      the string that toFixed prints ([unary_plus]).  Sums, differences
      and products are exact: the analysis applies them to counts and
      breakpoints, whole numbers far below 2^53 on which binary64
      arithmetic is exact as well; the style and panel formulas apply
      them to fractions, and of their results only bounds are stated, and
      the values at the scores 0 and 1, which binary64 arithmetic gives
      as well.  The two zeros of binary64 are one number: the module
      never divides by a number that can be zero and never looks at the
      sign of zero.
    - A [properties] object is a finite map from property names to
      numbers; a missing key reads as [undefined].  Non-numeric
      properties (names, identifiers) are never read or written by the
      module and are left out.
    - The Turf.js functions the module calls belong to an external
      library; they are the operations of the class [Turf].  Each of them
      may throw, which is the [Throw] completion.
    - A feature collection is the list of its features, in array order;
      every feature owns its geometry and its properties object, as they
      do in collections decoded from JSON or built by the data loader. *)

From Stdlib Require Import ZArith QArith Qround Qabs Lia Lqa Sorted Permutation Ascii.
From stdpp Require Import base option list strings gmap.

Open Scope Q_scope.

(** ** JavaScript numbers *)

Inductive num : Type :=
  | NaN
  | PInf
  | NInf
  | Fin (q : Q).

(** [undefined] is the absent value: [None].  ToNumber(undefined) = NaN. *)
Definition to_number (v : option num) : num :=
  match v with
  | Some x => x
  | None => NaN
  end.

(** ToBoolean on a number or undefined: NaN, 0 and undefined are falsy. *)
Definition to_boolean (v : option num) : bool :=
  match v with
  | None => false
  | Some NaN => false
  | Some (Fin q) => negb (Qeq_bool q 0)
  | Some _ => true
  end.

(** The relational operators; every comparison with NaN is false. *)
Definition num_le (x y : num) : bool :=
  match x, y with
  | NaN, _ | _, NaN => false
  | NInf, _ => true
  | _, PInf => true
  | Fin a, Fin b => Qle_bool a b
  | _, _ => false
  end.

Definition num_lt (x y : num) : bool :=
  match x, y with
  | NaN, _ | _, NaN => false
  | PInf, _ => false
  | _, NInf => false
  | Fin a, Fin b => negb (Qle_bool b a)
  | _, _ => true
  end.

Definition num_ge (x y : num) : bool := num_le y x.
Definition num_gt (x y : num) : bool := num_lt y x.

Definition num_neg (x : num) : num :=
  match x with
  | NaN => NaN
  | PInf => NInf
  | NInf => PInf
  | Fin q => Fin (Qred (- q))
  end.

Definition num_add (x y : num) : num :=
  match x, y with
  | NaN, _ | _, NaN => NaN
  | PInf, NInf | NInf, PInf => NaN
  | PInf, _ | _, PInf => PInf
  | NInf, _ | _, NInf => NInf
  | Fin a, Fin b => Fin (Qred (a + b))
  end.

Definition num_sub (x y : num) : num := num_add x (num_neg y).

(** Sign of a number other than NaN and 0, for the quotient rules. *)
Definition inf_of_sign (positive : bool) : num :=
  if positive then PInf else NInf.

(** *** Rounding to binary64 *)

(** [two_pow k] is 2^k, for the exponents from 0 on. *)
Definition two_pow (k : Z) : Q := inject_Z (2 ^ k).

(** The nearest integer, a tie going to the even one. *)
Definition round_half_even (x : Q) : Z :=
  let f := Qfloor x in
  match Qcompare (x - inject_Z f) (1 # 2) with
  | Lt => f
  | Eq => if Z.even f then f else (f + 1)%Z
  | Gt => (f + 1)%Z
  end.

(** Magnitudes are counted in multiples of 2^-1074, the smallest positive
    binary64 number.  For [x] such multiples, the unit in the last place
    of the 53-bit significand is [two_pow (ulp_exponent x)] of them: 1 up
    to 2^53, which covers the subnormal numbers and the first binade of
    the normal ones, and 2^(e - 52) from 2^e to 2^(e + 1). *)
Definition ulp_exponent (x : Q) : Z := Z.max 0 (Z.log2 (Qfloor x) - 52).

(** The significand [x] is rounded to, and the rounded magnitude. *)
Definition significand (x : Q) : Z :=
  round_half_even (x / two_pow (ulp_exponent x)).

Definition rounded (x : Q) : Q :=
  inject_Z (significand x) * two_pow (ulp_exponent x).

Definition binary64_magnitude (a : Q) : Q :=
  rounded (a * two_pow 1074) / two_pow 1074.

(** A magnitude from 2^1024 - 2^970 on, half a unit above the largest
    finite number, overflows. *)
Definition binary64_overflow : Q := inject_Z (2 ^ 1024 - 2 ^ 970).

(** The binary64 number an exact result is rounded to. *)
Definition binary64 (q : Q) : num :=
  if Qle_bool 0 q
  then (if Qle_bool binary64_overflow q then PInf
        else Fin (Qred (binary64_magnitude q)))
  else (if Qle_bool binary64_overflow (- q) then NInf
        else Fin (Qred (- binary64_magnitude (- q)))).
Arguments binary64 : simpl never.

(** *** Division *)

Definition num_div (x y : num) : num :=
  match x, y with
  | NaN, _ | _, NaN => NaN
  | Fin a, Fin b =>
      if Qeq_bool b 0
      then (if Qeq_bool a 0 then NaN else inf_of_sign (Qle_bool 0 a))
      else binary64 (a / b)
  | Fin _, _ => Fin 0
  | PInf, Fin b => inf_of_sign (Qle_bool 0 b)
  | NInf, Fin b => inf_of_sign (negb (Qle_bool 0 b))
  | _, _ => NaN
  end.

(** Math.max of two arguments, and of an argument list: the fold starts
    from -Infinity and NaN is absorbing. *)
Definition num_max (x y : num) : num :=
  match x, y with
  | NaN, _ | _, NaN => NaN
  | _, _ => if num_le x y then y else x
  end.

Definition Math_max (xs : list num) : num := foldr num_max NInf xs.

(** [x.toFixed(d)], as the number its string denotes.  toFixed rounds the
    magnitude to [d] decimals, a tie going up; from 1e21 on it prints the
    number itself; NaN and the infinities print as such. *)
Definition ten_pow (d : nat) : Z := (10 ^ Z.of_nat d)%Z.

Definition round_half_up (d : nat) (q : Q) : Q :=
  Qred (inject_Z (Qfloor (q * inject_Z (ten_pow d) + (1 # 2))) / inject_Z (ten_pow d)).

Definition toFixed (d : nat) (x : num) : num :=
  match x with
  | Fin q =>
      let a := Qabs q in
      if Qle_bool (inject_Z (ten_pow 21)) a then Fin (Qred q)
      else if Qle_bool 0 q then Fin (round_half_up d a)
      else Fin (Qred (- round_half_up d a))
  | _ => x
  end.

(** [+s] for the string [s] that toFixed printed: the decimal is read
    back as the binary64 number nearest to it. *)
Definition unary_plus (x : num) : num :=
  match x with
  | Fin q => binary64 q
  | _ => x
  end.

Definition num_of_nat (n : nat) : num := Fin (inject_Z (Z.of_nat n)).

Definition num_eqb (x y : num) : bool := num_le x y && num_le y x.

(** ** Completions *)

(** A call into the geometry library either returns a value or throws. *)
Inductive completion (A : Type) : Type :=
  | Normal (a : A)
  | Throw.
Arguments Normal {A} a.
Arguments Throw {A}.

(** How a call of the module ended.  The features it received are mutated
    in place, so their state is observable in both cases. *)
Inductive outcome : Type :=
  | Returned
  | Thrown.

(** ** GeoJSON features *)

Record Geometry (Coords : Type) : Type := mkGeometry {
  gtype : string;
  coordinates : Coords
}.
Arguments mkGeometry {Coords} gtype coordinates.
Arguments gtype {Coords} g.
Arguments coordinates {Coords} g.

Record Feature (Coords : Type) : Type := mkFeature {
  geometry : Geometry Coords;
  properties : gmap string num
}.
Arguments mkFeature {Coords} geometry properties.
Arguments geometry {Coords} f.
Arguments properties {Coords} f.

(** [f.properties.key], [f.properties.key = v] and [f.properties.key++]. *)
Definition get_prop {Coords} (key : string) (f : Feature Coords) : num :=
  to_number (properties f !! key).

Definition set_prop {Coords} (key : string) (v : num) (f : Feature Coords) : Feature Coords :=
  mkFeature (geometry f) (<[key := v]> (properties f)).

Definition incr_prop {Coords} (key : string) (f : Feature Coords) : Feature Coords :=
  set_prop key (num_add (get_prop key f) (Fin 1)) f.

(** ** The geometry library *)

(** The four Turf.js entry points the module uses.  [turf_nearestPointOnLine]
    stands for the call followed by [.properties.dist], the only part of
    the answer that is read.  Containment, area and distance depend on the
    geometry of the feature they are given, not on its properties. *)
Class Turf (Coords Pt : Type) : Type := {
  turf_point : Coords -> completion Pt;
  turf_booleanPointInPolygon : Pt -> Geometry Coords -> completion bool;
  turf_area : Geometry Coords -> completion num;
  turf_nearestPointOnLine : Geometry Coords -> Pt -> completion num
}.

(** ** CONFIG.analysis *)

Record Analysis : Type := mkAnalysis {
  trailBufferMeters : num;
  densityBreaks : list num
}.

Definition fin_Z (z : Z) : num := Fin (inject_Z z).

Definition CONFIG_analysis : Analysis :=
  {| trailBufferMeters := fin_Z 100;
     densityBreaks := map fin_Z [0; 1; 5; 15; 40; 100]%Z |}.

(** ** Array.prototype.sort *)

(** [Array.prototype.sort] with a comparator is a stable sort (ECMAScript
    2019).  [x] goes after [y] when the comparator is positive on (x, y);
    a NaN answer counts as 0. *)
Fixpoint sortInsert {A} (cmp : A -> A -> num) (x : A) (sorted : list A) : list A :=
  match sorted with
  | [] => [x]
  | y :: rest =>
      if num_gt (cmp x y) (Fin 0) then y :: sortInsert cmp x rest
      else x :: y :: rest
  end.

Definition Array_sort {A} (cmp : A -> A -> num) (l : list A) : list A :=
  foldr (sortInsert cmp) [] l.

(** ** SpatialAnalysis *)

Section SpatialAnalysis.
Context {Coords Pt : Type} `{!Turf Coords Pt}.

(** The configuration object is a global the functions read when they
    are called. *)
Variable CONFIG : Analysis.

Local Abbreviation Features := (list (Feature Coords)).

(** *** aggregateByWatershed *)

(** Lines 27-30: the reset loop. *)
Definition resetWatershed (ws : Feature Coords) : Feature Coords :=
  set_prop "obsDensity" (Fin 0) (set_prop "obsCount" (Fin 0) ws).

(** Lines 37-46: the [for ... of] loop over the watersheds for one point.
    A true answer increments the count and breaks; a false answer and a
    caught exception both go on to the next watershed. *)
Fixpoint countInFirst (turfPt : Pt) (features : Features) : Features :=
  match features with
  | [] => []
  | ws :: rest =>
      match turf_booleanPointInPolygon turfPt (geometry ws) with
      | Normal true => incr_prop "obsCount" ws :: rest
      | Normal false => ws :: countInFirst turfPt rest
      | Throw => ws :: countInFirst turfPt rest
      end
  end.

(** Lines 33-47: [points.forEach].  [turf.point] is called outside the
    [try] block: when it throws, the exception leaves [forEach] and the
    function, with the features as they are at that moment. *)
Fixpoint countObservations (points : Features) (features : Features)
  : Features * outcome :=
  match points with
  | [] => (features, Returned)
  | pt :: rest =>
      let coord := coordinates (geometry pt) in
      match turf_point coord with
      | Throw => (features, Thrown)
      | Normal turfPt => countObservations rest (countInFirst turfPt features)
      end
  end.

(** Line 52: [turf.area(ws) / 1e6]. *)
Definition areaKm2_of (area : num) : num := num_div area (fin_Z 1000000).

(** Lines 51-58: the density of one watershed, with its [try]/[catch]. *)
Definition setDensity (ws : Feature Coords) : Feature Coords :=
  match turf_area (geometry ws) with
  | Normal area =>
      let areaKm2 := areaKm2_of area in
      set_prop "obsDensity"
        (if num_gt areaKm2 (Fin 0)
         then unary_plus (toFixed 2 (num_div (get_prop "obsCount" ws) areaKm2))
         else Fin 0)
        ws
  | Throw => set_prop "obsDensity" (Fin 0) ws
  end.

Definition aggregateByWatershed (watersheds observations : Features)
  : Features * outcome :=
  let points := observations in
  let reset := map resetWatershed watersheds in
  match countObservations points reset with
  | (counted, Returned) => (map setDensity counted, Returned)
  | (counted, Thrown) => (counted, Thrown)
  end.

(** *** classifyDensity *)

(** Lines 70-72: the loop from the last index down; [k] is [i + 1]. *)
Fixpoint classifyFrom (breaks : list num) (count : num) (k : nat) : nat :=
  match k with
  | O => 0%nat
  | S i =>
      if num_ge count (to_number (breaks !! i)) then i
      else classifyFrom breaks count i
  end.

Definition classifyDensity (count : num) : nat :=
  let breaks := densityBreaks CONFIG in
  classifyFrom breaks count (length breaks).

(** *** scoreTrails *)

(** Line 98. *)
Definition bufferKm_of (bufferMeters : option num) : num :=
  num_div
    (if to_boolean bufferMeters then to_number bufferMeters
     else trailBufferMeters CONFIG)
    (fin_Z 1000).

(** Lines 102-105. *)
Definition resetTrail (t : Feature Coords) : Feature Coords :=
  set_prop "scoreNorm" (Fin 0) (set_prop "obsNearby" (Fin 0) t).

(** Lines 113-121: one trail against one point. *)
Definition scoreNearby (bufferKm : num) (turfPt : Pt) (trail : Feature Coords)
  : Feature Coords :=
  match turf_nearestPointOnLine (geometry trail) turfPt with
  | Normal distKm =>
      if num_le distKm bufferKm then incr_prop "obsNearby" trail else trail
  | Throw => trail
  end.

(** Lines 108-123. *)
Fixpoint scoreObservations (bufferKm : num) (points : Features) (features : Features)
  : Features * outcome :=
  match points with
  | [] => (features, Returned)
  | pt :: rest =>
      let coord := coordinates (geometry pt) in
      match turf_point coord with
      | Throw => (features, Thrown)
      | Normal turfPt =>
          scoreObservations bufferKm rest (map (scoreNearby bufferKm turfPt) features)
      end
  end.

(** Line 126. *)
Definition maxObs_of (features : Features) : num :=
  Math_max (Fin 1 :: map (get_prop "obsNearby") features).

(** Lines 127-129. *)
Definition setScoreNorm (maxObs : num) (t : Feature Coords) : Feature Coords :=
  set_prop "scoreNorm"
    (unary_plus (toFixed 3 (num_div (get_prop "obsNearby" t) maxObs))) t.

Definition scoreTrails (trails observations : Features) (bufferMeters : option num)
  : Features * outcome :=
  let bufferKm := bufferKm_of bufferMeters in
  let points := observations in
  let reset := map resetTrail trails in
  match scoreObservations bufferKm points reset with
  | (scored, Returned) =>
      let maxObs := maxObs_of scored in
      (map (setScoreNorm maxObs) scored, Returned)
  | (scored, Thrown) => (scored, Thrown)
  end.

(** *** rankWatersheds and rankTrails *)

Definition rankWatersheds (watersheds : Features) : Features :=
  Array_sort
    (fun a b => num_sub (get_prop "obsCount" b) (get_prop "obsCount" a))
    (List.filter (fun f => num_gt (get_prop "obsCount" f) (Fin 0)) watersheds).

Definition rankTrails (trails : Features) : Features :=
  Array_sort
    (fun a b => num_sub (get_prop "obsNearby" b) (get_prop "obsNearby" a))
    (List.filter (fun f => num_gt (get_prop "obsNearby" f) (Fin 0)) trails).

End SpatialAnalysis.

(** ** A planar stand-in for the geometry library *)

(** Used to run the module on concrete collections.  Positions are pairs
    of integers, in metres.  A point has exactly one position; a polygon
    is an axis-parallel rectangle given by two opposite corners; a line is
    a non-empty list of vertices and the distance to it is the distance to
    its nearest vertex along the axes, in kilometres.  Anything else is
    malformed and makes the function throw. *)
Module Planar.

Definition Position : Type := Z * Z.
Definition Coords : Type := list Position.

Definition point (c : Coords) : completion Position :=
  match c with
  | [p] => Normal p
  | _ => Throw
  end.

Definition booleanPointInPolygon (p : Position) (g : Geometry Coords) : completion bool :=
  match coordinates g with
  | [(x0, y0); (x1, y1)] =>
      if String.eqb (gtype g) "Polygon"
      then Normal ((x0 <=? p.1)%Z && (p.1 <=? x1)%Z && (y0 <=? p.2)%Z && (p.2 <=? y1)%Z)
      else Throw
  | _ => Throw
  end.

Definition area (g : Geometry Coords) : completion num :=
  match coordinates g with
  | [(x0, y0); (x1, y1)] =>
      if String.eqb (gtype g) "Polygon"
      then Normal (fin_Z ((x1 - x0) * (y1 - y0)))
      else Throw
  | _ => Throw
  end.

Definition axis_distance (p q : Position) : Z :=
  (Z.abs (p.1 - q.1) + Z.abs (p.2 - q.2))%Z.

Definition nearestPointOnLine (g : Geometry Coords) (p : Position) : completion num :=
  match coordinates g with
  | [] => Throw
  | v :: vs =>
      if String.eqb (gtype g) "LineString"
      then Normal (Fin (Qred (inject_Z (foldr Z.min (axis_distance p v) (map (axis_distance p) vs)) / 1000)))
      else Throw
  end.

#[global] Instance turf : Turf Coords Position := {|
  turf_point := point;
  turf_booleanPointInPolygon := booleanPointInPolygon;
  turf_area := area;
  turf_nearestPointOnLine := nearestPointOnLine
|}.

Definition observation (x y : Z) : Feature Coords :=
  mkFeature (mkGeometry "Point" [(x, y)]) ∅.

Definition rectangle (x0 y0 x1 y1 : Z) : Feature Coords :=
  mkFeature (mkGeometry "Polygon" [(x0, y0); (x1, y1)]) ∅.

Definition line (vs : list Position) : Feature Coords :=
  mkFeature (mkGeometry "LineString" vs) ∅.

(** A feature whose coordinates no function accepts. *)
Definition malformed (ty : string) : Feature Coords :=
  mkFeature (mkGeometry ty []) ∅.

(** Two overlapping watersheds and one without usable geometry; a point
    inside both, a point inside the second only, a point outside. *)
Definition ex_watersheds : list (Feature Coords) :=
  [rectangle 0 0 3000 1000; rectangle 0 0 5000 5000; malformed "Polygon"].

Definition ex_observations : list (Feature Coords) :=
  [observation 10 10; observation 4000 4000; observation 9000 9000].

(** Two trails 50 m apart and one without usable geometry. *)
Definition ex_trails : list (Feature Coords) :=
  [line [(0, 0); (1000, 0)]%Z; line [(0, 50); (1000, 50)]%Z; malformed "LineString"].

(** The example observations with one in between whose coordinates are
    not a position. *)
Definition ex_observations_malformed : list (Feature Coords) :=
  [observation 10 10; malformed "Point"; observation 4000 4000].

End Planar.

(** The example trails as a run with the default buffer leaves them. *)
Definition ex_trails_scored : list (Feature Planar.Coords) :=
  (scoreTrails CONFIG_analysis Planar.ex_trails Planar.ex_observations None).1.

(** ** A geometry library of given measures *)

(** Used for runs in which only the arithmetic matters.  The coordinates
    of a feature are its measure: the area of a polygon in square metres,
    the distance of a line from any point in kilometres.  Every point is
    accepted and lies inside every polygon. *)
Module Measured.

#[global] Instance turf : Turf num unit := {|
  turf_point _ := Normal tt;
  turf_booleanPointInPolygon _ _ := Normal true;
  turf_area g := Normal (coordinates g);
  turf_nearestPointOnLine g _ := Normal (coordinates g)
|}.

Definition polygon (area : num) : Feature num :=
  mkFeature (mkGeometry "Polygon" area) ∅.

Definition observation : Feature num :=
  mkFeature (mkGeometry "Point" (Fin 0)) ∅.

(** 2^-1010 square metres, about 9.1e-305. *)
Definition tiny_area : num := Fin (1 / two_pow 1010).

End Measured.

(** * The presentation side *)

(** ** More of JavaScript *)


(** [v || d] for a property that holds a number or is missing. *)
Definition or_default (v : option num) (d : num) : num :=
  if to_boolean v then to_number v else d.

(** ** CONFIG, with the colour tables *)

Record Config : Type := mkConfig {
  analysis : Analysis;
  densityColors : list string;
  trailScoreColors : list string
}.

Definition CONFIG_full : Config :=
  {| analysis := CONFIG_analysis;
     densityColors :=
       ["#2a3323"; "#3d5a1e"; "#6b8e23"; "#9acd32"; "#f0b429"; "#e85d5d"];
     trailScoreColors :=
       ["#3a4a2e"; "#5a7a3e"; "#8ebc50"; "#f0b429"; "#e85d5d"] |}.

(** ** SpatialAnalysis: colours and weights *)

Section Colours.
Variable CONFIG : Config.

(** Lines 79-81.  An index outside the table reads as [undefined]. *)
Definition getDensityColor (count : num) : option string :=
  densityColors CONFIG !! classifyDensity (analysis CONFIG) count.

(** Lines 137-144. *)
Definition getTrailColor (scoreNorm : num) : option string :=
  let colors := trailScoreColors CONFIG in
  if num_le scoreNorm (Fin 0) then colors !! 0%nat
  else if num_lt scoreNorm (Fin 0.25) then colors !! 1%nat
  else if num_lt scoreNorm (Fin 0.5) then colors !! 2%nat
  else if num_lt scoreNorm (Fin 0.75) then colors !! 3%nat
  else colors !! 4%nat.


End Colours.

(** ** MapStyles (src/map-styles.js) *)

Module MapStyles.

(** The path options returned for a watershed and for a trail. *)
Record WatershedStyle : Type := mkWatershedStyle {
  ws_color : string;
  ws_weight : num;
  ws_opacity : num;
  ws_fillColor : option string;
  ws_fillOpacity : num
}.


Section Styles.
Context {Coords : Type}.
Variable CONFIG : Config.

(** Lines 24-32. *)
Definition watershedDefaultStyle : WatershedStyle :=
  {| ws_color := "#3a4a2e"; ws_weight := Fin 1; ws_opacity := Fin 0.5;
     ws_fillColor := Some "#2a3323"; ws_fillOpacity := Fin 0.3 |}.

(** Lines 37-46. *)
Definition watershedChoroplethStyle (feature : Feature Coords) : WatershedStyle :=
  let count := or_default (properties feature !! "obsCount") (Fin 0) in
  {| ws_color := "#4a5e38"; ws_weight := Fin 1; ws_opacity := Fin 0.7;
     ws_fillColor := getDensityColor CONFIG count; ws_fillOpacity := Fin 0.55 |}.


(** Lines 138-139: the [stars] constant of trailPopup, as the number of
    stars it shows; 0 stands for the dash. *)
Definition trailPopup_stars (feature : Feature Coords) : nat :=
  let score := or_default (properties feature !! "scoreNorm") (Fin 0) in
  if num_gt score (Fin 0.75) then 3%nat
  else if num_gt score (Fin 0.5) then 2%nat
  else if num_gt score (Fin 0.25) then 1%nat
  else 0%nat.


End Styles.

End MapStyles.

(** ** The results panel (app.js, showResults) *)

Section ResultsPanel.
Context {Coords : Type}.







End ResultsPanel.

(** ** Paging through the iNaturalist results (api-client.js) *)

Section Paging.
Context {Observation : Type}.

(** One request: [fetch], [res.json()] and [data.results || []].  A
    network or decoding failure is the [Throw] completion. *)
Variable fetchPage : nat -> completion (list Observation).
Variables perPage maxPages : nat.



End Paging.


(** ** Naming the trails (data-loader.js, loadAllTrails) *)

Module DataLoader.

(** A string is the list of its characters. *)
Definition chars (s : string) : list Ascii.ascii := String.list_ascii_of_string s.

(** [s.replace(/^pre/, '')], [s.replace(/suf$/, '')] for literal [pre] and
    [suf], and [s.replace(/_/g, ' ')]. *)
Definition removePrefix (pre s : list Ascii.ascii) : list Ascii.ascii :=
  if decide (pre `prefix_of` s) then drop (length pre) s else s.

Definition removeSuffix (suf s : list Ascii.ascii) : list Ascii.ascii :=
  if decide (suf `suffix_of` s) then take (length s - length suf) s else s.

Definition underscoresToSpaces (s : list Ascii.ascii) : list Ascii.ascii :=
  map (fun c => if Ascii.eqb c "_" then " "%char else c) s.

(** Lines 60-63. *)
Definition watershedName (filename : list Ascii.ascii) : list Ascii.ascii :=
  underscoresToSpaces
    (removeSuffix (chars ".geojson") (removePrefix (chars "Trails_") filename)).

(** [a || b] on a string property that may be missing; the empty string
    is falsy. *)
Definition or_string (a : option (list Ascii.ascii)) (b : list Ascii.ascii)
  : list Ascii.ascii :=
  match a with
  | Some (c :: s) => c :: s
  | _ => b
  end.

(** Lines 69-75: the name a trail feature has after loading. *)
Definition trailName (properties : gmap string (list Ascii.ascii))
    (watershed : list Ascii.ascii) : list Ascii.ascii :=
  match properties !! "name" with
  | Some (c :: s) => c :: s
  | _ =>
      or_string (properties !! "TRAIL_NAME")
        (or_string (properties !! "Name")
           (or_string (properties !! "NAME")
              (or_string (properties !! "trail_name")
                 (chars "Trail (" ++ watershed ++ chars ")"))))
  end.

End DataLoader.

(** * Vocabulary of the properties *)

(** [r] is the highest index whose breakpoint [count] reaches. *)
Definition highest_reached (breaks : list num) (count : num) (r : nat) : Prop :=
  (r < length breaks)%nat /\
  num_ge count (to_number (breaks !! r)) = true /\
  forall j, (r < j < length breaks)%nat ->
    num_ge count (to_number (breaks !! j)) = false.

Definition strictly_ascending (breaks : list num) : Prop :=
  Sorted (fun a b => num_lt a b = true) breaks.

(** The filter of the rankings, and the features whose key is the number
    [k]. *)
Definition positive_key {Coords} (key : string) (f : Feature Coords) : bool :=
  num_gt (get_prop key f) (Fin 0).

Definition same_key {Coords} (key : string) (k : num) (f : Feature Coords) : bool :=
  num_eqb (get_prop key f) k.

(** [output] is the ranking of [input] by the property [key]: exactly the
    features whose key is positive, in non-increasing order of the key,
    features with the same key in their input order. *)
Definition ranked_by {Coords} (key : string) (input output : list (Feature Coords)) : Prop :=
  Permutation output (List.filter (positive_key key) input) /\
  StronglySorted (fun a b => num_ge (get_prop key a) (get_prop key b) = true) output /\
  forall k, List.filter (same_key key k) output =
            List.filter (same_key key k) (List.filter (positive_key key) input).

Section Vocabulary.
Context {Coords Pt : Type} `{!Turf Coords Pt}.

(** The observation's coordinates are accepted by [turf.point]. *)
Definition accepted (pt : Feature Coords) : bool :=
  match turf_point (coordinates (geometry pt)) with
  | Normal _ => true
  | Throw => false
  end.

(** The points a [points.forEach] loop gets to: those of the observations
    in order, up to the first one that [turf.point] rejects. *)
Fixpoint reached (points : list (Feature Coords)) : list Pt :=
  match points with
  | [] => []
  | pt :: rest =>
      match turf_point (coordinates (geometry pt)) with
      | Normal turfPt => turfPt :: reached rest
      | Throw => []
      end
  end.

(** How a loop over the observations ends. *)
Definition loop_outcome (points : list (Feature Coords)) : outcome :=
  if forallb accepted points then Returned else Thrown.

(** The containment test answers true. *)
Definition contains (turfPt : Pt) (ws : Feature Coords) : bool :=
  match turf_booleanPointInPolygon turfPt (geometry ws) with
  | Normal b => b
  | Throw => false
  end.

(** Index of the first watershed, in array order, that contains the point. *)
Fixpoint firstContaining (turfPt : Pt) (features : list (Feature Coords)) : option nat :=
  match features with
  | [] => None
  | ws :: rest =>
      if contains turfPt ws then Some 0%nat
      else S <$> firstContaining turfPt rest
  end.

(** Number of reached points assigned to the watershed of index [i]. *)
Definition assignedTo (watersheds observations : list (Feature Coords)) (i : nat) : nat :=
  length (List.filter
            (fun turfPt => bool_decide (firstContaining turfPt watersheds = Some i))
            (reached observations)).

(** The nearest-point distance is available and within the buffer. *)
Definition near (bufferKm : num) (turfPt : Pt) (trail : Feature Coords) : bool :=
  match turf_nearestPointOnLine (geometry trail) turfPt with
  | Normal distKm => num_le distKm bufferKm
  | Throw => false
  end.

(** Number of reached points near the trail. *)
Definition nearbyOf (bufferKm : num) (observations : list (Feature Coords))
    (trail : Feature Coords) : nat :=
  length (List.filter (fun turfPt => near bufferKm turfPt trail) (reached observations)).

(** The trails as the scoring loop leaves them. *)
Definition scoredTrails (bufferKm : num) (trails observations : list (Feature Coords))
  : list (Feature Coords) :=
  map (fun t => foldl (fun t turfPt => scoreNearby bufferKm turfPt t)
                  (resetTrail t) (reached observations)) trails.

(** The library with every failure of a comparison replaced by the safe
    answer: not contained, area 0, infinitely far.  [turf.point] is left
    as it is. *)
Definition skipFailures : Turf Coords Pt := {|
  turf_point := turf_point;
  turf_booleanPointInPolygon turfPt g :=
    match turf_booleanPointInPolygon turfPt g with
    | Normal b => Normal b
    | Throw => Normal false
    end;
  turf_area g :=
    match turf_area g with
    | Normal a => Normal a
    | Throw => Normal (Fin 0)
    end;
  turf_nearestPointOnLine g turfPt :=
    match turf_nearestPointOnLine g turfPt with
    | Normal d => Normal d
    | Throw => Normal PInf
    end
|}.

(** The library never reports a negative distance. *)
Definition distances_not_negative : Prop :=
  forall g turfPt d,
    turf_nearestPointOnLine g turfPt = Normal d -> num_lt d (Fin 0) = false.

End Vocabulary.

Section PagingVocabulary.
Context {Observation : Type}.
Variable fetchPage : nat -> completion (list Observation).
Variable perPage : nat.


End PagingVocabulary.

Section MoreVocabulary.
Context {Coords Pt : Type} `{!Turf Coords Pt}.

(** Some watershed contains the point. *)
Definition insideSome (watersheds : list (Feature Coords)) (turfPt : Pt) : bool :=
  bool_decide (is_Some (firstContaining turfPt watersheds)).

(** The sum of a numeric property over a collection. *)
Definition totalOf (key : string) (features : list (Feature Coords)) : num :=
  foldr num_add (Fin 0) (map (get_prop key) features).

End MoreVocabulary.

(** * Properties *)

(** ** Arithmetic of [num] *)

Section NumFacts.

Lemma Qred_inject_Z (z : Z) : Qred (inject_Z z) = inject_Z z.
Proof.
  unfold Qred, inject_Z.
  pose proof (Z.ggcd_gcd z 1) as Hg.
  pose proof (Z.ggcd_correct_divisors z 1) as Hd.
  destruct (Z.ggcd z 1) as [g [a b]]. simpl in *.
  rewrite Z.gcd_1_r in Hg. subst g. destruct Hd as [Ha Hb].
  rewrite !Z.mul_1_l in *. subst. reflexivity.
Qed.

Lemma Qred_eq_inject_Z (q : Q) (z : Z) : q == inject_Z z -> Qred q = inject_Z z.
Proof. intros H. rewrite <- (Qred_inject_Z z). by apply Qred_complete. Qed.

Lemma num_le_Fin (a b : Q) : num_le (Fin a) (Fin b) = true <-> a <= b.
Proof. apply Qle_bool_iff. Qed.

Lemma num_le_Fin_false (a b : Q) : num_le (Fin a) (Fin b) = false <-> b < a.
Proof.
  simpl. split.
  - intros H. apply Qnot_le_lt. intros Hle. apply Qle_bool_iff in Hle. congruence.
  - intros H. destruct (Qle_bool a b) eqn:E; [|done].
    apply Qle_bool_iff in E. exfalso. lra.
Qed.

Lemma num_lt_Fin (a b : Q) : num_lt (Fin a) (Fin b) = true <-> a < b.
Proof.
  simpl. rewrite negb_true_iff. apply num_le_Fin_false.
Qed.

Lemma num_lt_le (x y : num) : num_lt x y = true -> num_le x y = true.
Proof.
  destruct x, y; simpl; try done.
  rewrite negb_true_iff. intros H. apply (num_le_Fin_false q0 q) in H.
  apply Qle_bool_iff. lra.
Qed.

Lemma num_lt_not_ge (x y : num) : num_lt x y = true -> num_ge x y = false.
Proof.
  unfold num_ge. destruct x, y; simpl; try done.
  by rewrite negb_true_iff.
Qed.

Lemma num_lt_trans (x y z : num) :
  num_lt x y = true -> num_lt y z = true -> num_lt x z = true.
Proof.
  destruct x, y, z; simpl; try done.
  rewrite !negb_true_iff. intros H1 H2.
  apply (num_le_Fin_false q0 q) in H1. apply (num_le_Fin_false q1 q0) in H2.
  apply (num_le_Fin_false q1 q). lra.
Qed.

Lemma num_le_trans (x y z : num) :
  num_le x y = true -> num_le y z = true -> num_le x z = true.
Proof.
  destruct x, y, z; simpl; try done.
  rewrite !Qle_bool_iff. lra.
Qed.

Lemma num_of_nat_succ (n : nat) :
  num_add (num_of_nat n) (Fin 1) = num_of_nat (S n).
Proof.
  unfold num_of_nat. simpl num_add. f_equal.
  apply Qred_eq_inject_Z. rewrite Nat2Z.inj_succ, <- Z.add_1_r, inject_Z_plus.
  reflexivity.
Qed.

Lemma num_of_nat_inj (a b : nat) : num_of_nat a = num_of_nat b -> a = b.
Proof. unfold num_of_nat, inject_Z. intros [= E]. lia. Qed.

Lemma num_le_of_nat (a b : nat) :
  num_le (num_of_nat a) (num_of_nat b) = true <-> (a <= b)%nat.
Proof.
  unfold num_of_nat. rewrite num_le_Fin, <- Zle_Qle. lia.
Qed.

Lemma num_lt_of_nat (a b : nat) :
  num_lt (num_of_nat a) (num_of_nat b) = true <-> (a < b)%nat.
Proof.
  unfold num_of_nat. rewrite num_lt_Fin, <- Zlt_Qlt. lia.
Qed.

Lemma num_max_of_nat (a b : nat) :
  num_max (num_of_nat a) (num_of_nat b) = num_of_nat (Nat.max a b).
Proof.
  unfold num_max. change (num_of_nat a) with (Fin (inject_Z (Z.of_nat a))) at 1.
  change (num_of_nat b) with (Fin (inject_Z (Z.of_nat b))) at 1.
  cbv iota beta.
  destruct (num_le (num_of_nat a) (num_of_nat b)) eqn:E.
  - apply num_le_of_nat in E. f_equal. lia.
  - f_equal. destruct (decide (a <= b)%nat) as [Hle|Hgt].
    + apply num_le_of_nat in Hle. congruence.
    + lia.
Qed.

Lemma Qle_bool_false (a b : Q) : Qle_bool a b = false <-> b < a.
Proof. apply num_le_Fin_false. Qed.

End NumFacts.

(** ** Rounding to binary64 *)

(** Comparisons of rationals, from their boolean form. *)
Ltac qbool :=
  repeat match goal with
         | H : Qle_bool _ _ = true |- _ => apply Qle_bool_iff in H
         | H : Qle_bool _ _ = false |- _ => apply Qle_bool_false in H
         end.

Section Binary64Facts.

Lemma Qdiv_one (x : Q) : x / 1 == x.
Proof. unfold Qdiv. change (/ 1) with 1. apply Qmult_1_r. Qed.

Lemma two_pow_pos (k : Z) : (0 <= k)%Z -> 0 < two_pow k.
Proof.
  intros Hk. unfold two_pow. rewrite <- (Zlt_Qlt 0). by apply Z.pow_pos_nonneg.
Qed.

Lemma two_pow_add (j k : Z) :
  (0 <= j)%Z -> (0 <= k)%Z -> two_pow (j + k) == two_pow j * two_pow k.
Proof.
  intros Hj Hk. unfold two_pow. by rewrite Z.pow_add_r, inject_Z_mult.
Qed.

Lemma two_pow_le (j k : Z) : (0 <= j <= k)%Z -> two_pow j <= two_pow k.
Proof.
  intros Hjk. unfold two_pow. rewrite <- Zle_Qle. apply Z.pow_le_mono_r; lia.
Qed.

Lemma round_half_even_bounds (x : Q) :
  (Qfloor x <= round_half_even x <= Qfloor x + 1)%Z.
Proof.
  unfold round_half_even.
  destruct (Qcompare _ _); [destruct (Z.even _)| |]; lia.
Qed.

Lemma round_half_even_comp (x y : Q) : x == y -> round_half_even x = round_half_even y.
Proof.
  intros Hxy. unfold round_half_even.
  rewrite (Qfloor_comp x y Hxy).
  assert (Hc : Qcompare (x - inject_Z (Qfloor y)) (1 # 2)
               = Qcompare (y - inject_Z (Qfloor y)) (1 # 2))
    by (apply Qcompare_comp; [by rewrite Hxy|reflexivity]).
  by rewrite Hc.
Qed.

Lemma round_half_even_Z (n : Z) : round_half_even (inject_Z n) = n.
Proof.
  unfold round_half_even. rewrite Qfloor_Z.
  assert (Hc : Qcompare (inject_Z n - inject_Z n) (1 # 2) = Lt).
  { apply (proj1 (Qlt_alt _ _)). lra. }
  by rewrite Hc.
Qed.

Lemma round_half_even_mono (x y : Q) :
  x <= y -> (round_half_even x <= round_half_even y)%Z.
Proof.
  intros Hxy.
  pose proof (Qfloor_resp_le x y Hxy) as Hf.
  destruct (Z.eq_dec (Qfloor x) (Qfloor y)) as [E|NE].
  - unfold round_half_even. rewrite E.
    destruct (Qcompare (x - inject_Z (Qfloor y)) (1 # 2)) eqn:Cx;
      destruct (Qcompare (y - inject_Z (Qfloor y)) (1 # 2)) eqn:Cy;
      try (destruct (Z.even (Qfloor y))); try lia; exfalso;
      repeat match goal with
             | H : Qcompare _ _ = Eq |- _ => apply Qeq_alt in H
             | H : Qcompare _ _ = Lt |- _ => apply Qlt_alt in H
             | H : Qcompare _ _ = Gt |- _ => apply Qgt_alt in H
             end; lra.
  - pose proof (round_half_even_bounds x). pose proof (round_half_even_bounds y). lia.
Qed.

Lemma round_half_even_ge (n : Z) (x : Q) : inject_Z n <= x -> (n <= round_half_even x)%Z.
Proof. intros H. rewrite <- (round_half_even_Z n). by apply round_half_even_mono. Qed.

Lemma round_half_even_le (n : Z) (x : Q) : x <= inject_Z n -> (round_half_even x <= n)%Z.
Proof. intros H. rewrite <- (round_half_even_Z n). by apply round_half_even_mono. Qed.

(** Rounding to 0: exactly the numbers of [[-1/2, 1/2]] (needed from 0 on). *)
Lemma round_half_even_zero (x : Q) :
  0 <= x -> (round_half_even x = 0%Z <-> x <= 1 # 2).
Proof.
  intros Hx. split.
  - intros Hr. destruct (Qlt_le_dec (1 # 2) x) as [Hgt|Hle]; [exfalso|done].
    pose proof (round_half_even_bounds x) as Hb.
    assert (Hf : (0 <= Qfloor x)%Z).
    { rewrite <- (Qfloor_Z 0). by apply Qfloor_resp_le. }
    assert (Hf0 : Qfloor x = 0%Z) by lia.
    unfold round_half_even in Hr. rewrite Hf0 in Hr.
    destruct (Qcompare (x - inject_Z 0) (1 # 2)) eqn:C; simpl in Hr; try lia;
      [apply Qeq_alt in C|apply Qlt_alt in C]; change (inject_Z 0) with 0 in C; lra.
  - intros Hle. apply Z.le_antisymm.
    + transitivity (round_half_even (1 # 2)); [by apply round_half_even_mono|].
      by vm_compute.
    + by apply (round_half_even_ge 0).
Qed.

(** Where [x] lies with respect to its unit in the last place. *)
Lemma ulp_exponent_nonneg (x : Q) : (0 <= ulp_exponent x)%Z.
Proof. unfold ulp_exponent. lia. Qed.

Lemma ulp_exponent_mono (x y : Q) : x <= y -> (ulp_exponent x <= ulp_exponent y)%Z.
Proof.
  intros Hxy. unfold ulp_exponent.
  pose proof (Z.log2_le_mono _ _ (Qfloor_resp_le x y Hxy)). lia.
Qed.

Lemma ulp_exponent_comp (x y : Q) : x == y -> ulp_exponent x = ulp_exponent y.
Proof. intros Hxy. unfold ulp_exponent. by rewrite (Qfloor_comp x y Hxy). Qed.

Lemma below_next_binade (x : Q) :
  0 <= x -> x < two_pow (ulp_exponent x + 53).
Proof.
  intros Hx. unfold two_pow.
  assert (Hf : (0 <= Qfloor x)%Z).
  { rewrite <- (Qfloor_Z 0). by apply Qfloor_resp_le. }
  assert (Hlt : (Qfloor x < 2 ^ (ulp_exponent x + 53))%Z).
  { unfold ulp_exponent.
    destruct (Z.eq_dec (Qfloor x) 0%Z) as [E0|Hne].
    - rewrite E0. simpl. lia.
    - destruct (Z.log2_spec (Qfloor x)) as [_ Hhi]; [lia|].
      eapply Z.lt_le_trans; [exact Hhi|].
      apply Z.pow_le_mono_r; [lia|].
      pose proof (Z.log2_nonneg (Qfloor x)). lia. }
  pose proof (Qlt_floor x) as Hx1.
  eapply Qlt_le_trans; [exact Hx1|]. rewrite <- Zle_Qle. lia.
Qed.

Lemma above_binade (x : Q) :
  (0 < ulp_exponent x)%Z -> two_pow (ulp_exponent x + 52) <= x.
Proof.
  intros Hk. unfold two_pow.
  assert (Hl : ulp_exponent x = (Z.log2 (Qfloor x) - 52)%Z)
    by (unfold ulp_exponent in *; lia).
  assert (Hpos : (0 < Qfloor x)%Z).
  { destruct (Z_lt_le_dec 0 (Qfloor x)) as [H|H]; [done|].
    rewrite (Z.log2_nonpos _ H) in Hl. lia. }
  destruct (Z.log2_spec (Qfloor x) Hpos) as [Hlo _].
  eapply Qle_trans; [|apply Qfloor_le]. rewrite <- Zle_Qle.
  replace (ulp_exponent x + 52)%Z with (Z.log2 (Qfloor x)) by lia. done.
Qed.


Lemma significand_le (x : Q) : 0 <= x -> (significand x <= 2 ^ 53)%Z.
Proof.
  intros Hx. unfold significand. apply round_half_even_le.
  pose proof (two_pow_pos _ (ulp_exponent_nonneg x)) as Hu.
  apply Qle_shift_div_r; [done|].
  pose proof (below_next_binade x Hx) as Hlt.
  rewrite two_pow_add in Hlt by (pose proof (ulp_exponent_nonneg x); lia).
  change (two_pow 53) with (inject_Z (2 ^ 53)) in Hlt.
  rewrite Qmult_comm. by apply Qlt_le_weak.
Qed.

Lemma significand_ge (x : Q) : (0 < ulp_exponent x)%Z -> (2 ^ 52 <= significand x)%Z.
Proof.
  intros Hk. unfold significand. apply round_half_even_ge.
  pose proof (two_pow_pos _ (ulp_exponent_nonneg x)) as Hu.
  apply Qle_shift_div_l; [done|].
  pose proof (above_binade x Hk) as Hge.
  rewrite two_pow_add in Hge by lia.
  change (two_pow 52) with (inject_Z (2 ^ 52)) in Hge.
  by rewrite Qmult_comm.
Qed.

Lemma significand_nonneg (x : Q) : 0 <= x -> (0 <= significand x)%Z.
Proof.
  intros Hx. unfold significand. apply (round_half_even_ge 0).
  pose proof (two_pow_pos _ (ulp_exponent_nonneg x)) as Hu.
  apply Qle_shift_div_l; [done|]. by rewrite Qmult_0_l.
Qed.


Lemma rounded_mono (x y : Q) : 0 <= x -> x <= y -> rounded x <= rounded y.
Proof.
  intros Hx Hxy. unfold rounded.
  pose proof (ulp_exponent_mono x y Hxy) as Hk.
  pose proof (ulp_exponent_nonneg x) as Hkx.
  pose proof (two_pow_pos _ Hkx) as Hux.
  destruct (Z.eq_dec (ulp_exponent x) (ulp_exponent y)) as [E|NE].
  - unfold significand. rewrite <- E.
    apply Qmult_le_compat_r; [|by apply Qlt_le_weak].
    rewrite <- Zle_Qle. apply round_half_even_mono.
    apply Qmult_le_compat_r; [done|]. apply Qlt_le_weak. by apply Qinv_lt_0_compat.
  - assert (Hky : (0 < ulp_exponent y)%Z) by lia.
    apply Qle_trans with (two_pow (ulp_exponent y + 52)).
    + apply Qle_trans with (two_pow (ulp_exponent x + 53)).
      * rewrite (Z.add_comm _ 53), two_pow_add by lia.
        apply Qmult_le_compat_r; [|by apply Qlt_le_weak].
        unfold two_pow. rewrite <- Zle_Qle. by apply significand_le.
      * apply two_pow_le. lia.
    + rewrite (Z.add_comm _ 52), two_pow_add by lia.
      apply Qmult_le_compat_r; [|apply Qlt_le_weak, two_pow_pos; lia].
      unfold two_pow. rewrite <- Zle_Qle. by apply significand_ge.
Qed.

Lemma rounded_comp (x y : Q) : x == y -> rounded x == rounded y.
Proof.
  intros Hxy. unfold rounded, significand.
  rewrite (ulp_exponent_comp x y Hxy).
  rewrite (round_half_even_comp (x / two_pow (ulp_exponent y)) (y / two_pow (ulp_exponent y)));
    [reflexivity|by rewrite Hxy].
Qed.

Lemma rounded_zero (x : Q) : 0 <= x -> (rounded x == 0 <-> x <= 1 # 2).
Proof.
  intros Hx. unfold rounded.
  pose proof (ulp_exponent_nonneg x) as Hk.
  pose proof (two_pow_pos _ Hk) as Hu.
  split.
  - intros H0.
    assert (Hs : significand x = 0%Z).
    { destruct (Qmult_integral _ _ H0) as [H1|H1].
      - by apply inject_Z_injective.
      - rewrite H1 in Hu. by apply Qlt_irrefl in Hu. }
    destruct (Z_lt_le_dec 0 (ulp_exponent x)) as [Hpos|Hle].
    { pose proof (significand_ge x Hpos). lia. }
    assert (Hk0 : ulp_exponent x = 0%Z) by lia.
    unfold significand in Hs. rewrite Hk0 in Hs.
    apply (round_half_even_zero (x / two_pow 0)) in Hs.
    + change (two_pow 0) with 1 in Hs. by rewrite Qdiv_one in Hs.
    + change (two_pow 0) with 1. by rewrite Qdiv_one.
  - intros Hle.
    assert (Hf : Qfloor x = 0%Z).
    { apply Z.le_antisymm.
      - transitivity (Qfloor (1 # 2)); [by apply Qfloor_resp_le|done].
      - rewrite <- (Qfloor_Z 0). by apply Qfloor_resp_le. }
    assert (Hk0 : ulp_exponent x = 0%Z)
      by (unfold ulp_exponent; rewrite Hf; reflexivity).
    unfold significand. rewrite Hk0. change (two_pow 0) with 1.
    assert (Hs : round_half_even (x / 1) = 0%Z).
    { apply round_half_even_zero; by rewrite Qdiv_one. }
    rewrite Hs. reflexivity.
Qed.

Lemma binary64_magnitude_mono (a b : Q) :
  0 <= a -> a <= b -> binary64_magnitude a <= binary64_magnitude b.
Proof.
  intros Ha Hab. unfold binary64_magnitude.
  assert (Hp : 0 < two_pow 1074) by (by apply two_pow_pos).
  apply Qmult_le_compat_r; [|apply Qlt_le_weak; by apply Qinv_lt_0_compat].
  apply rounded_mono.
  - apply Qmult_le_0_compat; [done|by apply Qlt_le_weak].
  - apply Qmult_le_compat_r; [done|by apply Qlt_le_weak].
Qed.

Lemma binary64_magnitude_comp (a b : Q) :
  a == b -> binary64_magnitude a == binary64_magnitude b.
Proof.
  intros Hab. unfold binary64_magnitude.
  rewrite (rounded_comp (a * two_pow 1074) (b * two_pow 1074)); [reflexivity|].
  by rewrite Hab.
Qed.

Lemma binary64_magnitude_nonneg (a : Q) : 0 <= a -> 0 <= binary64_magnitude a.
Proof.
  intros Ha. unfold binary64_magnitude.
  assert (Hp : 0 < two_pow 1074) by (by apply two_pow_pos).
  apply Qle_shift_div_l; [done|]. rewrite Qmult_0_l. unfold rounded.
  apply Qmult_le_0_compat.
  - rewrite <- (Zle_Qle 0). apply significand_nonneg.
    apply Qmult_le_0_compat; [done|by apply Qlt_le_weak].
  - apply Qlt_le_weak, two_pow_pos, ulp_exponent_nonneg.
Qed.

(** Underflow to zero: up to half of the smallest positive number. *)
Lemma binary64_magnitude_zero (a : Q) :
  0 <= a -> (binary64_magnitude a == 0 <-> a * two_pow 1075 <= 1).
Proof.
  intros Ha. unfold binary64_magnitude.
  assert (Hp : 0 < two_pow 1074) by (by apply two_pow_pos).
  assert (Hx : 0 <= a * two_pow 1074)
    by (apply Qmult_le_0_compat; [done|by apply Qlt_le_weak]).
  assert (H2 : two_pow 1075 == two_pow 1074 * 2).
  { change 1075%Z with (1074 + 1)%Z. by rewrite two_pow_add. }
  rewrite H2. set (x := a * two_pow 1074) in *.
  setoid_replace (a * (two_pow 1074 * 2)) with (x * 2) using relation Qeq
    by (unfold x; ring).
  pose proof (rounded_zero x Hx) as Hz.
  split.
  - intros H0. assert (Hr : rounded x == 0).
    { apply Qmult_integral in H0 as [H0|H0]; [done|].
      exfalso. assert (H1 : two_pow 1074 * / two_pow 1074 == 1).
      { apply Qmult_inv_r. intros E. rewrite E in Hp. by apply Qlt_irrefl in Hp. }
      rewrite H0, Qmult_0_r in H1. discriminate. }
    apply Hz in Hr. lra.
  - intros Hle. assert (Hr : rounded x == 0) by (apply Hz; lra).
    rewrite Hr. unfold Qdiv. apply Qmult_0_l.
Qed.


(** A magnitude below the overflow threshold is rounded to at most the
    largest finite number, (2^53 - 1) * 2^971. *)
Lemma round_half_even_below_half (n : Z) (y : Q) :
  y < inject_Z n + (1 # 2) -> (round_half_even y <= n)%Z.
Proof.
  intros Hy.
  assert (Hf : (Qfloor y <= n)%Z).
  { destruct (Z_lt_le_dec n (Qfloor y)) as [Hlt|Hle]; [exfalso|done].
    pose proof (Qfloor_le y) as Hfl.
    assert (inject_Z (n + 1) <= inject_Z (Qfloor y)) by (rewrite <- Zle_Qle; lia).
    rewrite inject_Z_plus in *. change (inject_Z 1) with 1 in *. lra. }
  destruct (Z.eq_dec (Qfloor y) n) as [E|NE].
  - unfold round_half_even. rewrite E.
    assert (Hc : Qcompare (y - inject_Z n) (1 # 2) = Lt) by (apply (proj1 (Qlt_alt _ _)); lra).
    rewrite Hc. lia.
  - pose proof (round_half_even_bounds y). lia.
Qed.

Lemma rounded_Z (x : Q) :
  rounded x == inject_Z (significand x * 2 ^ ulp_exponent x).
Proof. unfold rounded, two_pow. by rewrite inject_Z_mult. Qed.

Lemma rounded_below_overflow (x : Q) :
  0 <= x -> x < binary64_overflow * two_pow 1074 ->
  rounded x <= inject_Z ((2 ^ 53 - 1) * 2 ^ 2045).
Proof.
  intros Hx Hlt. rewrite rounded_Z, <- Zle_Qle.
  assert (Hf : (0 <= Qfloor x)%Z).
  { rewrite <- (Qfloor_Z 0). by apply Qfloor_resp_le. }
  pose proof (significand_nonneg x Hx) as Hs0.
  pose proof (significand_le x Hx) as Hs1.
  destruct (Z_lt_le_dec (Qfloor x) (2 ^ 2097)) as [Hsmall|Hbig].
  - assert (Hk : (ulp_exponent x <= 2044)%Z).
    { unfold ulp_exponent.
      destruct (Z.eq_dec (Qfloor x) 0%Z) as [E0|Hne]; [rewrite E0; simpl; lia|].
      assert (Z.log2 (Qfloor x) < 2097)%Z by (apply Z.log2_lt_pow2; lia). lia. }
    transitivity (2 ^ 53 * 2 ^ 2044)%Z.
    + apply Z.mul_le_mono_nonneg; [done|done| |].
      * apply Z.pow_nonneg. lia.
      * apply Z.pow_le_mono_r; [lia|done].
    + by vm_compute.
  - assert (Hhi : (Qfloor x < 2 ^ 2098)%Z).
    { rewrite Zlt_Qlt. eapply Qle_lt_trans; [apply Qfloor_le|].
      eapply Qlt_le_trans; [exact Hlt|]. by vm_compute. }
    assert (Hk : ulp_exponent x = 2045%Z).
    { unfold ulp_exponent. rewrite (Z.log2_unique (Qfloor x) 2097); [done|lia|].
      split; [done|]. exact Hhi. }
    apply Z.mul_le_mono_nonneg; [done| |apply Z.pow_nonneg; lia|rewrite Hk; lia].
    unfold significand. rewrite Hk. apply round_half_even_below_half.
    apply Qlt_shift_div_r; [by apply two_pow_pos|].
    eapply Qlt_le_trans; [exact Hlt|]. by vm_compute.
Qed.

Lemma binary64_magnitude_below_overflow (a : Q) :
  0 <= a -> a < binary64_overflow -> binary64_magnitude a < binary64_overflow.
Proof.
  intros Ha Hlt. unfold binary64_magnitude.
  assert (Hp : 0 < two_pow 1074) by (by apply two_pow_pos).
  apply Qlt_shift_div_r; [done|].
  eapply Qle_lt_trans.
  - apply rounded_below_overflow.
    + apply Qmult_le_0_compat; [done|by apply Qlt_le_weak].
    + by apply Qmult_lt_compat_r.
  - by vm_compute.
Qed.

(** *** Facts on [binary64] *)

Lemma binary64_comp (q q' : Q) : q == q' -> binary64 q = binary64 q'.
Proof.
  intros Hq. unfold binary64.
  assert (Hn : - q == - q') by (by rewrite Hq).
  rewrite (Qleb_comp _ _ (reflexivity 0) _ _ Hq).
  rewrite (Qleb_comp _ _ (reflexivity binary64_overflow) _ _ Hq).
  rewrite (Qleb_comp _ _ (reflexivity binary64_overflow) _ _ Hn).
  rewrite (Qred_complete _ _ (binary64_magnitude_comp _ _ Hq)).
  assert (Hm : - binary64_magnitude (- q) == - binary64_magnitude (- q'))
    by (by rewrite (binary64_magnitude_comp _ _ Hn)).
  by rewrite (Qred_complete _ _ Hm).
Qed.

Lemma binary64_overflow_pos : 0 < binary64_overflow.
Proof. by vm_compute. Qed.

Lemma binary64_not_NaN (q : Q) : binary64 q <> NaN.
Proof.
  unfold binary64.
  by destruct (Qle_bool 0 q), (Qle_bool binary64_overflow q),
    (Qle_bool binary64_overflow (- q)).
Qed.

(** Overflow: exactly from the threshold on. *)
Lemma binary64_PInf (q : Q) : binary64 q = PInf <-> binary64_overflow <= q.
Proof.
  pose proof binary64_overflow_pos as Hpos. unfold binary64. split.
  - destruct (Qle_bool 0 q); destruct (Qle_bool binary64_overflow q) eqn:E;
      destruct (Qle_bool binary64_overflow (- q)); try done;
      intros _; by apply Qle_bool_iff.
  - intros Hq.
    assert (Qle_bool 0 q = true) as -> by (apply Qle_bool_iff; lra).
    assert (Qle_bool binary64_overflow q = true) as -> by (by apply Qle_bool_iff).
    done.
Qed.

Lemma binary64_NInf (q : Q) : binary64 q = NInf <-> q <= - binary64_overflow.
Proof.
  pose proof binary64_overflow_pos as Hpos. unfold binary64. split.
  - destruct (Qle_bool 0 q); destruct (Qle_bool binary64_overflow q);
      destruct (Qle_bool binary64_overflow (- q)) eqn:E; try done;
      intros _; apply Qle_bool_iff in E; lra.
  - intros Hq.
    assert (Qle_bool 0 q = false) as -> by (apply Qle_bool_false; lra).
    assert (Qle_bool binary64_overflow (- q) = true) as -> by (apply Qle_bool_iff; lra).
    done.
Qed.

(** Below the threshold the result is finite, has the sign of the exact
    number and stays below the threshold. *)
Lemma binary64_finite (q : Q) :
  - binary64_overflow < q -> q < binary64_overflow ->
  exists r, binary64 q = Fin r /\ (0 <= q -> 0 <= r) /\ (q <= 0 -> r <= 0) /\
            (- binary64_overflow < r) /\ r < binary64_overflow.
Proof.
  pose proof binary64_overflow_pos as Hpos.
  intros Hlo Hhi. unfold binary64.
  destruct (Qle_bool 0 q) eqn:E0.
  - apply Qle_bool_iff in E0.
    assert (Qle_bool binary64_overflow q = false) as -> by (by apply Qle_bool_false).
    eexists. split; [done|]. rewrite Qred_correct.
    pose proof (binary64_magnitude_nonneg q E0) as Hm0.
    pose proof (binary64_magnitude_below_overflow q E0 Hhi) as Hm1.
    repeat split; try lra. intros Hq0.
    assert (Hz : q == 0) by lra.
    assert (Hz' : binary64_magnitude q == 0).
    { apply binary64_magnitude_zero; [done|]. rewrite Hz, Qmult_0_l. done. }
    lra.
  - apply Qle_bool_false in E0.
    assert (Qle_bool binary64_overflow (- q) = false) as ->
      by (apply Qle_bool_false; lra).
    eexists. split; [done|]. rewrite Qred_correct.
    assert (Hq : 0 <= - q) by lra.
    pose proof (binary64_magnitude_nonneg (- q) Hq) as Hm0.
    assert (Hhi' : - q < binary64_overflow) by lra.
    pose proof (binary64_magnitude_below_overflow (- q) Hq Hhi') as Hm1.
    repeat split; try lra.
Qed.

Lemma binary64_mono (q q' : Q) :
  q <= q' -> num_le (binary64 q) (binary64 q') = true.
Proof.
  pose proof binary64_overflow_pos as Hpos. intros Hqq.
  destruct (Qlt_le_dec q' binary64_overflow) as [Hhi'|Hhi'].
  2:{ apply binary64_PInf in Hhi'. rewrite Hhi'.
      pose proof (binary64_not_NaN q). by destruct (binary64 q). }
  destruct (Qlt_le_dec (- binary64_overflow) q) as [Hlo|Hlo].
  2:{ apply binary64_NInf in Hlo. rewrite Hlo.
      pose proof (binary64_not_NaN q'). by destruct (binary64 q'). }
  unfold binary64.
  destruct (Qle_bool 0 q) eqn:E0; destruct (Qle_bool 0 q') eqn:E0'; qbool.
  - assert (Qle_bool binary64_overflow q = false) as -> by (apply Qle_bool_false; lra).
    assert (Qle_bool binary64_overflow q' = false) as -> by (by apply Qle_bool_false).
    apply num_le_Fin. rewrite !Qred_correct. by apply binary64_magnitude_mono.
  - exfalso. lra.
  - assert (Qle_bool binary64_overflow (- q) = false) as -> by (apply Qle_bool_false; lra).
    assert (Qle_bool binary64_overflow q' = false) as -> by (by apply Qle_bool_false).
    apply num_le_Fin. rewrite !Qred_correct.
    assert (Hq : 0 <= - q) by lra.
    pose proof (binary64_magnitude_nonneg (- q) Hq).
    pose proof (binary64_magnitude_nonneg q' E0'). lra.
  - assert (Qle_bool binary64_overflow (- q) = false) as -> by (apply Qle_bool_false; lra).
    assert (Qle_bool binary64_overflow (- q') = false) as -> by (apply Qle_bool_false; lra).
    apply num_le_Fin. rewrite !Qred_correct.
    assert (Hq : 0 <= - q') by lra.
    assert (Hqq' : - q' <= - q) by lra.
    pose proof (binary64_magnitude_mono (- q') (- q) Hq Hqq'). lra.
Qed.

Lemma binary64_0 : binary64 0 = Fin 0.
Proof. by vm_compute. Qed.

Lemma binary64_1 : binary64 1 = Fin 1.
Proof. by vm_compute. Qed.

(** Rounding keeps a number between two binary64 numbers between them. *)
Lemma binary64_between (a b a' b' q : Q) :
  binary64 a = Fin a' -> binary64 b = Fin b' -> a <= q <= b ->
  exists r, binary64 q = Fin r /\ a' <= r <= b'.
Proof.
  intros Ha Hb [Haq Hqb].
  pose proof (binary64_mono a q Haq) as H1.
  pose proof (binary64_mono q b Hqb) as H2.
  rewrite Ha in H1. rewrite Hb in H2.
  destruct (binary64 q) as [| | |r]; try done.
  exists r. split; [done|]. by rewrite !num_le_Fin in *.
Qed.

(** Underflow: the result is 0 exactly up to 2^-1075 in magnitude. *)
Lemma binary64_zero (q : Q) :
  binary64 q = Fin 0 <-> Qabs q * two_pow 1075 <= 1.
Proof.
  pose proof binary64_overflow_pos as Hpos.
  assert (Hp : 0 < two_pow 1075) by (by apply two_pow_pos).
  assert (Hsmall : forall a, a * two_pow 1075 <= 1 -> a < binary64_overflow).
  { intros a Ha. apply Qlt_le_trans with (2 / two_pow 1075); [|by vm_compute].
    apply Qlt_shift_div_l; [done|]. lra. }
  assert (Hred : forall m, Qred m = 0 <-> m == 0).
  { intros m. split.
    - intros Hm. rewrite <- (Qred_correct m), Hm. reflexivity.
    - intros Hm. by apply (Qred_complete m 0). }
  unfold binary64. destruct (Qle_bool 0 q) eqn:E0; qbool.
  - rewrite (Qabs_pos q E0).
    destruct (Qle_bool binary64_overflow q) eqn:E1; qbool.
    + split; [done|]. intros Hq. apply Hsmall in Hq. exfalso. lra.
    + rewrite <- (binary64_magnitude_zero q E0). split.
      * intros [= Hm]. by apply Hred.
      * intros Hm. f_equal. by apply Hred.
  - rewrite (Qabs_neg q) by lra. assert (Hq : 0 <= - q) by lra.
    destruct (Qle_bool binary64_overflow (- q)) eqn:E1; qbool.
    + split; [done|]. intros Hq'. apply Hsmall in Hq'. exfalso. lra.
    + rewrite <- (binary64_magnitude_zero (- q) Hq). split.
      * intros [= Hm]. apply Hred in Hm. lra.
      * intros Hm. f_equal. apply Hred. lra.
Qed.

(** A number below -2^-1075 is rounded to a negative number. *)
Lemma binary64_negative (q : Q) :
  q * two_pow 1075 < - 1 -> num_lt (binary64 q) (Fin 0) = true.
Proof.
  intros Hq.
  assert (Hp : 0 < two_pow 1075) by (by apply two_pow_pos).
  assert (Hneg : q < 0).
  { destruct (Qlt_le_dec q 0) as [H|H]; [done|exfalso].
    assert (0 <= q * two_pow 1075)
      by (apply Qmult_le_0_compat; [done|by apply Qlt_le_weak]). lra. }
  unfold binary64.
  assert (Qle_bool 0 q = false) as -> by (by apply Qle_bool_false).
  destruct (Qle_bool binary64_overflow (- q)); [done|].
  apply num_lt_Fin. rewrite Qred_correct.
  assert (Hq0 : 0 <= - q) by lra.
  pose proof (binary64_magnitude_nonneg (- q) Hq0) as Hm.
  destruct (Qlt_le_dec 0 (binary64_magnitude (- q))) as [H|H]; [lra|exfalso].
  assert (Hz : binary64_magnitude (- q) == 0) by lra.
  apply binary64_magnitude_zero in Hz; [|done].
  setoid_replace (- q * two_pow 1075) with (- (q * two_pow 1075)) using relation Qeq in Hz
    by ring.
  lra.
Qed.

(** Some values: 0.1 is rounded up to 3602879701896397 * 2^-55; the
    largest finite number is (2^53 - 1) * 2^971, and the threshold above
    it overflows; the smallest positive number is 2^-1074, half of it
    underflows to 0 and one and a half times it is rounded to its
    double. *)
Example binary64_values :
  binary64 (1 # 10) = Fin (3602879701896397 # 36028797018963968) /\
  binary64 (binary64_overflow - 1) = Fin (inject_Z ((2 ^ 53 - 1) * 2 ^ 971)) /\
  binary64 binary64_overflow = PInf /\
  binary64 (- binary64_overflow) = NInf /\
  binary64 (1 / two_pow 1074) = Fin (Qred (1 / two_pow 1074)) /\
  binary64 (1 / two_pow 1075) = Fin 0 /\
  binary64 (3 / two_pow 1075) = Fin (Qred (2 / two_pow 1074)).
Proof. repeat split; vm_compute; reflexivity. Qed.

End Binary64Facts.

(** ** Arithmetic of the module *)

Section ArithmeticFacts.

Lemma num_gt_not_NaN (x y : num) : num_gt x y = true -> x <> NaN.
Proof. by destruct x, y. Qed.

(** The comparator [b - a] of the rankings, on numbers that are not NaN. *)
Lemma num_sub_gt (a b : num) :
  a <> NaN -> b <> NaN ->
  num_gt (num_sub b a) (Fin 0) = true -> num_ge b a = true.
Proof.
  unfold num_gt, num_ge, num_sub.
  destruct a, b; simpl; try done.
  rewrite negb_true_iff, Qle_bool_false, Qle_bool_iff, !Qred_correct. lra.
Qed.

Lemma num_sub_not_gt (a b : num) :
  a <> NaN -> b <> NaN ->
  num_gt (num_sub b a) (Fin 0) = false -> num_ge a b = true.
Proof.
  unfold num_gt, num_ge, num_sub.
  destruct a, b; simpl; try done.
  rewrite negb_false_iff, !Qle_bool_iff, !Qred_correct. lra.
Qed.

Lemma num_eqb_sub (a b k : num) :
  num_eqb a k = true -> num_eqb b k = true ->
  num_gt (num_sub b a) (Fin 0) = false.
Proof.
  unfold num_eqb, num_gt, num_sub. rewrite !andb_true_iff.
  destruct a, b, k; simpl; try done; try (intros [? ?]; done);
    try (intros _ [? ?]; done).
  rewrite negb_false_iff, !Qle_bool_iff, !Qred_correct. lra.
Qed.

Lemma ten_pow_pos (d : nat) : 0 < inject_Z (ten_pow d).
Proof.
  unfold ten_pow. rewrite <- (Zlt_Qlt 0). apply Z.pow_pos_nonneg; lia.
Qed.

Lemma round_half_up_nonneg (d : nat) (q : Q) : 0 <= q -> 0 <= round_half_up d q.
Proof.
  intros Hq. unfold round_half_up. rewrite Qred_correct.
  pose proof (ten_pow_pos d) as Ht.
  apply Qle_shift_div_l; [done|]. rewrite Qmult_0_l.
  rewrite <- (Zle_Qle 0). rewrite <- (Qfloor_Z 0). apply Qfloor_resp_le.
  assert (0 <= q * inject_Z (ten_pow d))
    by (apply Qmult_le_0_compat; [done|by apply Qlt_le_weak]).
  change (inject_Z 0) with 0. lra.
Qed.

(** Rounding to decimals moves a number up by at most one half. *)
Lemma round_half_up_le (d : nat) (q : Q) : round_half_up d q <= q + (1 # 2).
Proof.
  unfold round_half_up. rewrite Qred_correct.
  pose proof (ten_pow_pos d) as Ht.
  assert (Ht1 : 1 <= inject_Z (ten_pow d)).
  { unfold ten_pow. rewrite <- (Zle_Qle 1).
    pose proof (Z.pow_pos_nonneg 10 (Z.of_nat d)). lia. }
  apply Qle_shift_div_r; [done|].
  pose proof (Qfloor_le (q * inject_Z (ten_pow d) + (1 # 2))) as Hf.
  set (T := inject_Z (ten_pow d)) in *.
  setoid_replace ((q + (1 # 2)) * T) with (q * T + (1 # 2) * T) using relation Qeq by ring.
  lra.
Qed.

(** toFixed keeps a non-negative number below the overflow threshold
    below it. *)
Lemma toFixed_below (d : nat) (q : Q) :
  0 <= q -> q < binary64_overflow ->
  exists r, toFixed d (Fin q) = Fin r /\ 0 <= r /\ r < binary64_overflow.
Proof.
  intros Hq Hlt. unfold toFixed.
  destruct (Qle_bool (inject_Z (ten_pow 21)) (Qabs q)) eqn:E; qbool.
  - exists (Qred q). split; [done|]. by rewrite Qred_correct.
  - apply Qle_bool_iff in Hq as Hq'. rewrite Hq'.
    eexists. split; [done|]. split; [apply round_half_up_nonneg, Qabs_nonneg|].
    pose proof (round_half_up_le d (Qabs q)) as Hle.
    assert (Hc : inject_Z (ten_pow 21) + (1 # 2) < binary64_overflow) by (by vm_compute).
    lra.
Qed.

(** [toFixed(2)] moves a non-negative number by at most 0.005. *)
Lemma toFixed_2_close (q : Q) :
  0 <= q -> exists r, toFixed 2 (Fin q) = Fin r /\ Qabs (r - q) <= 1 # 200.
Proof.
  intros Hq. unfold toFixed.
  destruct (Qle_bool (inject_Z (ten_pow 21)) (Qabs q)).
  - exists (Qred q). split; [done|]. rewrite Qred_correct.
    setoid_replace (q - q) with 0 using relation Qeq by ring. done.
  - apply Qle_bool_iff in Hq as Hq'. rewrite Hq'.
    eexists. split; [done|]. unfold round_half_up. rewrite Qred_correct.
    rewrite (Qabs_pos q Hq).
    change (inject_Z (ten_pow 2)) with 100.
    pose proof (Qfloor_le (q * 100 + (1 # 2))) as Hlo.
    pose proof (Qlt_floor (q * 100 + (1 # 2))) as Hhi.
    rewrite inject_Z_plus in Hhi. change (inject_Z 1) with 1 in Hhi.
    set (F := inject_Z (Qfloor (q * 100 + (1 # 2)))) in *.
    apply Qabs_Qle_condition. split.
    + setoid_replace (F / 100 - q) with ((F - q * 100) / 100) using relation Qeq by field.
      apply Qle_shift_div_l; [done|]. lra.
    + setoid_replace (F / 100 - q) with ((F - q * 100) / 100) using relation Qeq by field.
      apply Qle_shift_div_r; [done|]. lra.
Qed.

(** [toFixed(3)] keeps a number of the unit interval in the unit interval,
    and 1 at 1. *)
Lemma toFixed_3_unit (q : Q) :
  0 <= q <= 1 -> exists r, toFixed 3 (Fin q) = Fin r /\ 0 <= r <= 1.
Proof.
  intros [Hq0 Hq1]. unfold toFixed.
  destruct (Qle_bool (inject_Z (ten_pow 21)) (Qabs q)).
  - exists (Qred q). split; [done|]. by rewrite Qred_correct.
  - apply Qle_bool_iff in Hq0 as Hq'. rewrite Hq'.
    eexists. split; [done|]. split; [apply round_half_up_nonneg, Qabs_nonneg|].
    unfold round_half_up. rewrite Qred_correct, (Qabs_pos q Hq0).
    change (inject_Z (ten_pow 3)) with 1000.
    apply Qle_shift_div_r; [done|].
    change (1 * 1000) with (inject_Z 1000). rewrite <- Zle_Qle.
    apply Z.le_trans with (Qfloor (1000 + (1 # 2))); [|by vm_compute].
    apply Qfloor_resp_le. lra.
Qed.

Lemma toFixed_3_one (q : Q) : q == 1 -> toFixed 3 (Fin q) = Fin 1.
Proof.
  intros Hq. unfold toFixed.
  assert (Ha : Qabs q == 1) by (rewrite Hq; reflexivity).
  rewrite (Qleb_comp _ _ (reflexivity _) _ _ Ha).
  rewrite (Qleb_comp _ _ (reflexivity 0) _ _ Hq).
  change (Qle_bool (inject_Z (ten_pow 21)) 1) with false.
  change (Qle_bool 0 1) with true. cbv iota.
  f_equal. unfold round_half_up.
  transitivity (Qred 1); [|reflexivity]. apply Qred_complete.
  rewrite (Qfloor_comp (Qabs q * inject_Z (ten_pow 3) + (1 # 2))
             (1 * inject_Z (ten_pow 3) + (1 # 2))); [reflexivity|].
  by rewrite Ha.
Qed.

Lemma num_div_of_nat (a m : nat) :
  (1 <= m)%nat ->
  num_div (num_of_nat a) (num_of_nat m) =
  binary64 (inject_Z (Z.of_nat a) / inject_Z (Z.of_nat m)).
Proof.
  intros Hm. unfold num_div, num_of_nat.
  destruct (Qeq_bool (inject_Z (Z.of_nat m)) 0) eqn:E; [|done].
  apply Qeq_bool_eq in E.
  assert (Z.of_nat m = 0%Z) by (by apply inject_Z_injective).
  exfalso. lia.
Qed.

(** A count divided by a positive number is rounded to a number that is
    not negative, or overflows to Infinity; it overflows exactly when the
    exact quotient reaches the overflow threshold. *)
Lemma num_div_count (n : nat) (y : num) :
  num_gt y (Fin 0) = true ->
  (num_div (num_of_nat n) y = PInf \/
   exists q, num_div (num_of_nat n) y = Fin q /\ 0 <= q /\ q < binary64_overflow) /\
  (num_div (num_of_nat n) y = PInf <->
   exists b, y = Fin b /\ binary64_overflow <= inject_Z (Z.of_nat n) / b).
Proof.
  pose proof binary64_overflow_pos as Hpos.
  unfold num_gt, num_of_nat. destruct y as [| | |b]; simpl; try done.
  - intros _. split.
    + right. exists 0. split; [done|]. split; [done|exact Hpos].
    + split; [done|]. by intros (b & [=] & _).
  - rewrite negb_true_iff, Qle_bool_false. intros Hb.
    destruct (Qeq_bool b 0) eqn:E.
    { apply Qeq_bool_eq in E. rewrite E in Hb. exfalso. by apply Qlt_irrefl in Hb. }
    set (x := inject_Z (Z.of_nat n) / b).
    assert (Hx : 0 <= x).
    { apply Qle_shift_div_l; [done|]. rewrite Qmult_0_l.
      rewrite <- (Zle_Qle 0). lia. }
    split.
    + destruct (Qlt_le_dec x binary64_overflow) as [Hlt|Hge].
      * right. destruct (binary64_finite x) as (q & Hq & Hq0 & _ & _ & Hq1); [lra|done|].
        exists q. split; [done|]. split; [by apply Hq0|done].
      * left. by apply binary64_PInf.
    + rewrite binary64_PInf. split.
      * intros Hge. by exists b.
      * intros (b' & [= <-] & Hge). done.
Qed.

Lemma Math_max_of_nat (a : nat) (ns : list nat) :
  Math_max (map num_of_nat (a :: ns)) = num_of_nat (foldr Nat.max a ns).
Proof.
  revert a. induction ns as [|b ns IH]; intros a.
  - reflexivity.
  - change (Math_max (map num_of_nat (a :: b :: ns)))
      with (num_max (num_of_nat a) (Math_max (map num_of_nat (b :: ns)))).
    rewrite IH, num_max_of_nat. f_equal.
    simpl. clear IH. revert a b. induction ns as [|c ns IH]; intros a b; simpl; [lia|].
    rewrite <- (IH a c), <- (IH b c). lia.
Qed.

Lemma ratio_unit (n m : nat) :
  (n <= m)%nat -> (1 <= m)%nat ->
  0 <= inject_Z (Z.of_nat n) / inject_Z (Z.of_nat m) <= 1.
Proof.
  intros Hn Hm.
  assert (0 < inject_Z (Z.of_nat m)) by (rewrite <- (Zlt_Qlt 0); lia).
  split.
  - apply Qle_shift_div_l; [done|]. rewrite Qmult_0_l, <- (Zle_Qle 0). lia.
  - apply Qle_shift_div_r; [done|]. rewrite Qmult_1_l, <- Zle_Qle. lia.
Qed.

Lemma ratio_one (m : nat) :
  (1 <= m)%nat -> inject_Z (Z.of_nat m) / inject_Z (Z.of_nat m) == 1.
Proof.
  intros Hm. apply Qmult_inv_r.
  intros E. assert (Z.of_nat m = 0%Z) by (by apply inject_Z_injective). lia.
Qed.

(** The number read back from the string of toFixed. *)
Lemma unary_plus_zero : unary_plus (Fin 0) = Fin 0.
Proof. apply binary64_0. Qed.

Lemma unary_plus_one : unary_plus (Fin 1) = Fin 1.
Proof. apply binary64_1. Qed.

Lemma unary_plus_unit (r : Q) :
  0 <= r <= 1 -> exists r', unary_plus (Fin r) = Fin r' /\ 0 <= r' <= 1.
Proof. apply (binary64_between 0 1 0 1 r binary64_0 binary64_1). Qed.

(** The quotient of two counts, the divisor being the larger one. *)
Lemma count_ratio_unit (n m : nat) :
  (n <= m)%nat -> (1 <= m)%nat ->
  exists q, num_div (num_of_nat n) (num_of_nat m) = Fin q /\ 0 <= q <= 1.
Proof.
  intros Hn Hm. rewrite (num_div_of_nat n m Hm).
  apply (binary64_between 0 1 0 1 _ binary64_0 binary64_1). by apply ratio_unit.
Qed.

Lemma count_ratio_one (m : nat) :
  (1 <= m)%nat -> num_div (num_of_nat m) (num_of_nat m) = Fin 1.
Proof.
  intros Hm. rewrite (num_div_of_nat m m Hm).
  rewrite (binary64_comp _ 1 (ratio_one m Hm)). apply binary64_1.
Qed.

Lemma count_ratio_zero (m : nat) :
  (1 <= m)%nat -> num_div (num_of_nat 0) (num_of_nat m) = Fin 0.
Proof.
  intros Hm. rewrite (num_div_of_nat 0 m Hm).
  rewrite (binary64_comp _ 0); [apply binary64_0|]. apply Qmult_0_l.
Qed.

Lemma toFixed_zero (d : nat) : toFixed d (Fin 0) = Fin 0.
Proof.
  unfold toFixed. change (Qle_bool (inject_Z (ten_pow 21)) (Qabs 0)) with false.
  change (Qle_bool 0 0) with true. cbv iota. reflexivity.
Qed.

(** [+(0 / m).toFixed(d)] is 0. *)
Lemma score_zero (d m : nat) :
  (1 <= m)%nat -> unary_plus (toFixed d (num_div (num_of_nat 0) (num_of_nat m))) = Fin 0.
Proof.
  intros Hm. rewrite (count_ratio_zero m Hm), toFixed_zero. apply unary_plus_zero.
Qed.

(** [+(n / m).toFixed(3)] for two such counts. *)
Lemma score_unit (n m : nat) :
  (n <= m)%nat -> (1 <= m)%nat ->
  exists r, unary_plus (toFixed 3 (num_div (num_of_nat n) (num_of_nat m))) = Fin r /\
            0 <= r <= 1.
Proof.
  intros Hn Hm. destruct (count_ratio_unit n m Hn Hm) as (q & -> & Hq).
  destruct (toFixed_3_unit q Hq) as (r & -> & Hr). by apply unary_plus_unit.
Qed.

Lemma score_one (m : nat) :
  (1 <= m)%nat ->
  unary_plus (toFixed 3 (num_div (num_of_nat m) (num_of_nat m))) = Fin 1.
Proof.
  intros Hm. rewrite (count_ratio_one m Hm), (toFixed_3_one 1) by reflexivity.
  apply unary_plus_one.
Qed.

Lemma foldr_max_ge (a : nat) (ns : list nat) :
  (a <= foldr Nat.max a ns)%nat /\
  forall k n, ns !! k = Some n -> (n <= foldr Nat.max a ns)%nat.
Proof.
  induction ns as [|b ns [IH1 IH2]]; simpl; [split; [lia|done]|].
  split; [lia|]. intros [|k] n; simpl.
  - intros [= ->]. lia.
  - intros Hk. specialize (IH2 k n Hk). lia.
Qed.

Lemma foldr_max_attained (a : nat) (ns : list nat) :
  foldr Nat.max a ns = a \/ exists k, ns !! k = Some (foldr Nat.max a ns).
Proof.
  induction ns as [|b ns IH]; simpl; [by left|].
  destruct (Nat.max_spec b (foldr Nat.max a ns)) as [[_ ->]|[_ ->]].
  - destruct IH as [IH|[k Hk]]; [by left|]. right. by exists (S k).
  - right. by exists 0%nat.
Qed.

(** A distance that is not negative is above every negative buffer. *)
Lemma num_le_negative_buffer (d b : num) :
  num_lt d (Fin 0) = false -> num_lt b (Fin 0) = true -> num_le d b = false.
Proof.
  destruct d as [| | |x], b as [| | |y]; simpl; try done.
  rewrite negb_false_iff, negb_true_iff, Qle_bool_iff, !Qle_bool_false. lra.
Qed.

(** Dividing by 1000: the quotient is 0 exactly when it underflows, for a
    number of magnitude up to 1000 * 2^-1075, and it is negative for a
    number below -1000 * 2^-1075. *)
Lemma num_div_1000 (q : Q) : num_div (Fin q) (fin_Z 1000) = binary64 (q / 1000).
Proof. reflexivity. Qed.

Lemma num_div_1000_zero (q : Q) :
  num_div (Fin q) (fin_Z 1000) = Fin 0 <-> Qabs q * two_pow 1075 <= 1000.
Proof.
  rewrite num_div_1000, binary64_zero.
  assert (Ha : Qabs (q / 1000) == Qabs q / 1000).
  { unfold Qdiv. rewrite Qabs_Qmult. reflexivity. }
  rewrite Ha.
  setoid_replace (Qabs q / 1000 * two_pow 1075) with (Qabs q * two_pow 1075 / 1000)
    using relation Qeq by field.
  set (y := Qabs q * two_pow 1075). split; intros H.
  - assert (Hy : y == y / 1000 * 1000) by field. lra.
  - apply Qle_shift_div_r; [done|lra].
Qed.

Lemma num_div_1000_negative (q : Q) :
  q * two_pow 1075 < - (1000) ->
  num_lt (num_div (Fin q) (fin_Z 1000)) (Fin 0) = true.
Proof.
  intros Hq. rewrite num_div_1000. apply binary64_negative.
  setoid_replace (q / 1000 * two_pow 1075) with (q * two_pow 1075 / 1000)
    using relation Qeq by field.
  apply Qlt_shift_div_r; [done|]. lra.
Qed.

Lemma num_div_1000_mono (x y : num) :
  num_le x y = true -> num_le (num_div x (fin_Z 1000)) (num_div y (fin_Z 1000)) = true.
Proof.
  destruct x as [| | |a], y as [| | |b]; try done.
  - intros _. rewrite num_div_1000.
    pose proof (binary64_not_NaN (b / 1000)). by destruct (binary64 (b / 1000)).
  - intros _. rewrite num_div_1000.
    pose proof (binary64_not_NaN (a / 1000)). by destruct (binary64 (a / 1000)).
  - intros Hab. apply num_le_Fin in Hab. rewrite !num_div_1000.
    apply binary64_mono. apply Qmult_le_compat_r; [done|]. done.
Qed.

End ArithmeticFacts.

Arguments num_le : simpl never.
Arguments num_lt : simpl never.
Arguments num_ge : simpl never.
Arguments num_gt : simpl never.
Arguments num_add : simpl never.
Arguments num_sub : simpl never.
Arguments num_div : simpl never.
Arguments num_max : simpl never.
Arguments toFixed : simpl never.

(** ** classifyDensity *)

Section Classify.

Lemma classifyFrom_lt (breaks : list num) (count : num) (k : nat) :
  (0 < k)%nat -> (classifyFrom breaks count k < k)%nat.
Proof.
  induction k as [|k IH]; [lia|]. intros _. simpl.
  destruct (num_ge count (to_number (breaks !! k))); [lia|].
  destruct k; [simpl; lia|]. specialize (IH ltac:(lia)). lia.
Qed.

(** The loop returns the first index, counting down from [k - 1], whose
    breakpoint is reached; every index above it is not reached. *)
Lemma classifyFrom_hit (breaks : list num) (count : num) (k i : nat) :
  (i < k)%nat ->
  num_ge count (to_number (breaks !! i)) = true ->
  let r := classifyFrom breaks count k in
  (i <= r)%nat /\ num_ge count (to_number (breaks !! r)) = true /\
  forall j, (r < j < k)%nat -> num_ge count (to_number (breaks !! j)) = false.
Proof.
  induction k as [|k IH]; [lia|]. intros Hi Hge. simpl.
  destruct (num_ge count (to_number (breaks !! k))) eqn:E.
  - split; [lia|]. split; [done|]. intros j Hj. lia.
  - assert (i <> k) by (intros ->; congruence).
    destruct (IH ltac:(lia) Hge) as (H1 & H2 & H3).
    split; [done|]. split; [done|]. intros j Hj.
    destruct (decide (j = k)) as [->|]; [done|]. apply H3. lia.
Qed.

Lemma classifyFrom_miss (breaks : list num) (count : num) (k : nat) :
  (forall j, (j < k)%nat -> num_ge count (to_number (breaks !! j)) = false) ->
  classifyFrom breaks count k = 0%nat.
Proof.
  induction k as [|k IH]; [done|]. intros H. simpl.
  rewrite (H k) by lia. apply IH. intros j Hj. apply H. lia.
Qed.

(** In a strictly ascending sequence every breakpoint after the first is
    above the first. *)
Lemma ascending_above_first (b0 : num) (breaks : list num) (j : nat) (b : num) :
  Sorted (fun a b => num_lt a b = true) (b0 :: breaks) ->
  (b0 :: breaks) !! j = Some b -> (0 < j)%nat -> num_lt b0 b = true.
Proof.
  intros Hs. apply Sorted_StronglySorted in Hs.
  - inversion Hs as [|? ? _ Hall]; subst. intros Hj Hpos.
    destruct j; [lia|]. simpl in Hj.
    rewrite List.Forall_forall in Hall. apply Hall.
    apply list_elem_of_In. by eapply list_elem_of_lookup_2.
  - intros x y z. apply num_lt_trans.
Qed.

(** C6.  For a strictly ascending breakpoint sequence, classifyDensity
    returns the highest index whose breakpoint the count reaches, whenever
    there is one; it returns 0 when the count is below the first
    breakpoint; and with the configured breakpoints [0,1,5,15,40,100] a
    count of 42 is in tier 4.  The count need not be non-negative. *)
Theorem classifyDensity_highest_index (cfg : Analysis) (count : num) :
  strictly_ascending (densityBreaks cfg) ->
  ((exists i, (i < length (densityBreaks cfg))%nat /\
              num_ge count (to_number (densityBreaks cfg !! i)) = true) ->
   highest_reached (densityBreaks cfg) count (classifyDensity cfg count))
  /\ (num_lt count (to_number (densityBreaks cfg !! 0%nat)) = true ->
      classifyDensity cfg count = 0%nat)
  /\ classifyDensity CONFIG_analysis (fin_Z 42) = 4%nat.
Proof.
  intros Hasc. unfold classifyDensity. set (breaks := densityBreaks cfg) in *.
  split; [|split].
  - intros (i & Hi & Hge).
    destruct (classifyFrom_hit breaks count (length breaks) i Hi Hge) as (H1 & H2 & H3).
    split; [|done]. apply classifyFrom_lt. lia.
  - intros Hlt. apply classifyFrom_miss. intros j Hj.
    apply num_lt_not_ge.
    destruct breaks as [|b0 rest]; [simpl in Hj; lia|].
    destruct (decide (j = 0%nat)) as [->|Hne]; [done|].
    destruct (lookup_lt_is_Some_2 (b0 :: rest) j Hj) as [b Hb].
    rewrite Hb. simpl in *.
    eapply num_lt_trans; [exact Hlt|].
    eapply ascending_above_first; [exact Hasc|exact Hb|lia].
  - reflexivity.
Qed.

Lemma classifyDensity_highest_index_witness :
  strictly_ascending (densityBreaks CONFIG_analysis) /\
  highest_reached (densityBreaks CONFIG_analysis) (fin_Z 42)
    (classifyDensity CONFIG_analysis (fin_Z 42)).
Proof.
  assert (Hasc : strictly_ascending (densityBreaks CONFIG_analysis))
    by (repeat constructor).
  split; [exact Hasc|].
  apply (classifyDensity_highest_index CONFIG_analysis (fin_Z 42) Hasc).
  exists 0%nat. split; [simpl; lia|reflexivity].
Defined.

End Classify.

(** ** Array.prototype.sort and the rankings *)

Section Ranking.
Context {A : Type} (cmp : A -> A -> num).

Lemma sortInsert_Permutation (x : A) (l : list A) :
  Permutation (sortInsert cmp x l) (x :: l).
Proof.
  induction l as [|y l IH]; simpl; [done|].
  destruct (num_gt (cmp x y) (Fin 0)); [|done].
  rewrite IH. apply perm_swap.
Qed.

Lemma Array_sort_Permutation (l : list A) : Permutation (Array_sort cmp l) l.
Proof.
  induction l as [|x l IH]; simpl; [done|].
  rewrite sortInsert_Permutation. by constructor.
Qed.

(** Insertion passes over no element that [p] selects together with [x]. *)
Lemma sortInsert_filter (p : A -> bool) (x : A) (l : list A) :
  (forall y, p x = true -> p y = true -> num_gt (cmp x y) (Fin 0) = false) ->
  List.filter p (sortInsert cmp x l) = List.filter p (x :: l).
Proof.
  intros Hp. induction l as [|y l IH]; [done|]. simpl sortInsert.
  destruct (num_gt (cmp x y) (Fin 0)) eqn:E; [|done].
  simpl in *. rewrite IH.
  destruct (p x) eqn:Ex, (p y) eqn:Ey; try done.
  rewrite Hp in E; done.
Qed.

Lemma Array_sort_filter (p : A -> bool) (l : list A) :
  (forall x y, p x = true -> p y = true -> num_gt (cmp x y) (Fin 0) = false) ->
  List.filter p (Array_sort cmp l) = List.filter p l.
Proof.
  intros Hp. induction l as [|x l IH]; [done|]. simpl Array_sort.
  rewrite sortInsert_filter by (intros y; apply Hp).
  simpl. by rewrite IH.
Qed.

(** Sortedness, for a comparator that agrees with an order [ge] on the
    elements being sorted. *)
Lemma sortInsert_sorted (ge : A -> A -> Prop) (ok : A -> Prop) (x : A) (l : list A) :
  (forall a b c, ge a b -> ge b c -> ge a c) ->
  (forall a b, ok a -> ok b -> num_gt (cmp a b) (Fin 0) = true -> ge b a) ->
  (forall a b, ok a -> ok b -> num_gt (cmp a b) (Fin 0) = false -> ge a b) ->
  ok x -> Forall ok l ->
  StronglySorted ge l -> StronglySorted ge (sortInsert cmp x l).
Proof.
  intros Htrans Hgt Hle Hx Hl Hs. induction Hs as [|y l Hs IH Hall]; simpl.
  - repeat constructor.
  - apply Forall_cons in Hl as [Hy Hl].
    destruct (num_gt (cmp x y) (Fin 0)) eqn:E.
    + constructor; [by apply IH|].
      rewrite (sortInsert_Permutation x l). constructor; [by apply Hgt|done].
    + assert (ge x y) by (by apply Hle).
      constructor; [by constructor|]. constructor; [done|].
      eapply List.Forall_impl; [|exact Hall]. intros z Hz. by eapply Htrans.
Qed.

Lemma Array_sort_sorted (ge : A -> A -> Prop) (ok : A -> Prop) (l : list A) :
  (forall a b c, ge a b -> ge b c -> ge a c) ->
  (forall a b, ok a -> ok b -> num_gt (cmp a b) (Fin 0) = true -> ge b a) ->
  (forall a b, ok a -> ok b -> num_gt (cmp a b) (Fin 0) = false -> ge a b) ->
  Forall ok l -> StronglySorted ge (Array_sort cmp l).
Proof.
  intros Htrans Hgt Hle Hl. induction Hl as [|x l Hx Hl IH]; simpl; [constructor|].
  apply (sortInsert_sorted ge ok); try done.
  by rewrite Array_sort_Permutation.
Qed.

End Ranking.

Section Rankings.
Context {Coords : Type}.
Implicit Types (features : list (Feature Coords)) (key : string).

Lemma rank_is_ranked_by key features :
  ranked_by key features
    (Array_sort (fun a b => num_sub (get_prop key b) (get_prop key a))
       (List.filter (positive_key key) features)).
Proof.
  split; [|split].
  - apply Array_sort_Permutation.
  - apply (Array_sort_sorted _ _ (fun f => get_prop key f <> NaN)).
    + intros a b c Hab Hbc. unfold num_ge in *. by eapply num_le_trans.
    + intros a b Ha Hb. by apply num_sub_gt.
    + intros a b Ha Hb. by apply num_sub_not_gt.
    + apply List.Forall_forall. intros f Hf.
      apply List.filter_In in Hf as [_ Hf].
      unfold positive_key in Hf. by eapply num_gt_not_NaN.
  - intros k. apply Array_sort_filter. intros x y. apply num_eqb_sub.
Qed.

(** C7.  rankWatersheds returns exactly the watersheds whose obsCount is
    positive, in non-increasing order of obsCount, watersheds with equal
    obsCount in their input order; rankTrails does the same with
    obsNearby. *)
Theorem rank_filters_sorts_stably (watersheds trails : list (Feature Coords)) :
  ranked_by "obsCount" watersheds (rankWatersheds watersheds) /\
  ranked_by "obsNearby" trails (rankTrails trails).
Proof.
  split; apply rank_is_ranked_by.
Qed.

End Rankings.

(** ** Property access *)

Section Props.
Context {Coords : Type}.
Implicit Types (f : Feature Coords) (key : string) (v : num).

Lemma get_set_prop key v f : get_prop key (set_prop key v f) = v.
Proof. unfold get_prop, set_prop. simpl. by rewrite lookup_insert_eq. Qed.

Lemma get_set_prop_ne key key' v f :
  key <> key' -> get_prop key (set_prop key' v f) = get_prop key f.
Proof. intros Hne. unfold get_prop, set_prop. simpl. by rewrite lookup_insert_ne. Qed.

Lemma geometry_set_prop key v f : geometry (set_prop key v f) = geometry f.
Proof. reflexivity. Qed.

Lemma set_set_prop key v v' f : set_prop key v (set_prop key v' f) = set_prop key v f.
Proof. unfold set_prop. simpl. by rewrite insert_insert_eq. Qed.

Lemma set_prop_commute key key' v v' f :
  key <> key' ->
  set_prop key v (set_prop key' v' f) = set_prop key' v' (set_prop key v f).
Proof. intros Hne. unfold set_prop. simpl. f_equal. by apply insert_insert_ne. Qed.

Lemma get_incr_prop key f :
  get_prop key (incr_prop key f) = num_add (get_prop key f) (Fin 1).
Proof. apply get_set_prop. Qed.

End Props.

(** ** aggregateByWatershed: counting *)

Section Counting.
Context {Coords Pt : Type} `{!Turf Coords Pt}.
Implicit Types (features watersheds points : list (Feature Coords)) (turfPt : Pt).

Lemma firstContaining_lt turfPt features i :
  firstContaining turfPt features = Some i -> (i < length features)%nat.
Proof.
  revert i. induction features as [|ws rest IH]; intros i; simpl; [done|].
  destruct (contains turfPt ws).
  - intros [= <-]. lia.
  - destruct (firstContaining turfPt rest) as [j|]; [|done].
    intros [= <-]. specialize (IH j eq_refl). lia.
Qed.

(** The loop over the watersheds changes the first watershed that
    contains the point, if there is one, and nothing else. *)
Lemma countInFirst_firstContaining turfPt features :
  countInFirst turfPt features =
  match firstContaining turfPt features with
  | Some i => alter (incr_prop "obsCount") i features
  | None => features
  end.
Proof.
  induction features as [|ws rest IH]; simpl; [done|].
  unfold contains.
  destruct (turf_booleanPointInPolygon turfPt (geometry ws)) as [[|]|]; [done| |];
    rewrite IH; by destruct (firstContaining turfPt rest).
Qed.

Lemma firstContaining_geometry turfPt features features' :
  map geometry features = map geometry features' ->
  firstContaining turfPt features = firstContaining turfPt features'.
Proof.
  revert features'. induction features as [|ws rest IH]; intros [|ws' rest']; try done.
  simpl. intros [= Hg Hrest]. unfold contains. rewrite Hg.
  by rewrite (IH rest' Hrest).
Qed.

Lemma countInFirst_geometry turfPt features :
  map geometry (countInFirst turfPt features) = map geometry features.
Proof.
  induction features as [|ws rest IH]; simpl; [done|].
  destruct (turf_booleanPointInPolygon turfPt (geometry ws)) as [[|]|];
    simpl; by rewrite ?IH.
Qed.

Lemma countObservations_foldl points features :
  countObservations points features =
  (foldl (fun fs turfPt => countInFirst turfPt fs) features (reached points),
   loop_outcome points).
Proof.
  revert features. unfold loop_outcome.
  induction points as [|pt rest IH]; intros features; simpl; [done|].
  unfold accepted.
  destruct (turf_point (coordinates (geometry pt))); simpl; [|done].
  apply IH.
Qed.

(** What the counting loop does to the watershed of index [i]: its count
    grows by the number of points assigned to it, nothing else changes. *)
Lemma counting_lookup (pts : list Pt) features i ws (n : nat) :
  features !! i = Some ws ->
  get_prop "obsCount" ws = num_of_nat n ->
  exists ws',
    foldl (fun fs turfPt => countInFirst turfPt fs) features pts !! i = Some ws' /\
    geometry ws' = geometry ws /\
    (forall key, key <> "obsCount" -> get_prop key ws' = get_prop key ws) /\
    get_prop "obsCount" ws' =
      num_of_nat (n + length (List.filter
        (fun turfPt => bool_decide (firstContaining turfPt features = Some i)) pts)).
Proof.
  revert features ws n. induction pts as [|p pts IH]; intros features ws n Hi Hn.
  - exists ws. simpl. rewrite Nat.add_0_r. done.
  - simpl foldl.
    assert (Hgeo : forall q,
      firstContaining q (countInFirst p features) = firstContaining q features).
    { intros q. apply firstContaining_geometry, countInFirst_geometry. }
    simpl List.filter.
    destruct (bool_decide (firstContaining p features = Some i)) eqn:E.
    + apply bool_decide_eq_true in E.
      destruct (IH (countInFirst p features) (incr_prop "obsCount" ws) (S n))
        as (ws' & H1 & H2 & H3 & H4).
      { rewrite countInFirst_firstContaining, E.
        rewrite list_lookup_alter_eq, Hi. done. }
      { rewrite get_incr_prop, Hn. apply num_of_nat_succ. }
      exists ws'. split; [done|]. split; [done|]. split.
      * intros key Hk. rewrite (H3 key Hk). by apply get_set_prop_ne.
      * rewrite H4. f_equal. simpl length.
        rewrite (List.filter_ext _ (fun turfPt => bool_decide (firstContaining turfPt features = Some i)))
          by (intros q; by rewrite Hgeo).
        lia.
    + apply bool_decide_eq_false in E.
      destruct (IH (countInFirst p features) ws n) as (ws' & H1 & H2 & H3 & H4).
      { rewrite countInFirst_firstContaining.
        destruct (firstContaining p features) as [j|] eqn:Ej; [|done].
        rewrite list_lookup_alter_ne; [done|]. intros ->. done. }
      { done. }
      exists ws'. split; [done|]. split; [done|]. split; [done|].
      rewrite H4. f_equal.
      rewrite (List.filter_ext _ (fun turfPt => bool_decide (firstContaining turfPt features = Some i)))
        by (intros q; by rewrite Hgeo).
      done.
Qed.

End Counting.

Section FirstMatch.
Context {Coords Pt : Type} `{!Turf Coords Pt}.
Implicit Types (features watersheds observations : list (Feature Coords)).

Lemma get_obsCount_setDensity (ws : Feature Coords) :
  get_prop "obsCount" (setDensity ws) = get_prop "obsCount" ws.
Proof.
  unfold setDensity. destruct (turf_area (geometry ws)); by rewrite get_set_prop_ne.
Qed.

Lemma geometry_setDensity (ws : Feature Coords) : geometry (setDensity ws) = geometry ws.
Proof. unfold setDensity. by destruct (turf_area (geometry ws)). Qed.

Lemma aggregateByWatershed_unfold watersheds observations :
  aggregateByWatershed watersheds observations =
  let counted := foldl (fun fs turfPt => countInFirst turfPt fs)
                   (map resetWatershed watersheds) (reached observations) in
  match loop_outcome observations with
  | Returned => (map setDensity counted, Returned)
  | Thrown => (counted, Thrown)
  end.
Proof.
  unfold aggregateByWatershed. rewrite countObservations_foldl.
  by destruct (loop_outcome observations).
Qed.

(** The state of the watershed of index [i] when the counting loop ends. *)
Lemma counted_lookup watersheds observations i ws :
  watersheds !! i = Some ws ->
  exists ws',
    foldl (fun fs turfPt => countInFirst turfPt fs)
      (map resetWatershed watersheds) (reached observations) !! i = Some ws' /\
    geometry ws' = geometry ws /\
    get_prop "obsDensity" ws' = Fin 0 /\
    get_prop "obsCount" ws' = num_of_nat (assignedTo watersheds observations i).
Proof.
  intros Hi.
  destruct (counting_lookup (reached observations) (map resetWatershed watersheds)
              i (resetWatershed ws) 0) as (ws' & H1 & H2 & H3 & H4).
  { by rewrite list_lookup_fmap, Hi. }
  { unfold resetWatershed. rewrite get_set_prop_ne by done. apply get_set_prop. }
  exists ws'. split; [done|]. split; [done|]. split.
  - rewrite H3 by done. apply get_set_prop.
  - rewrite H4. unfold assignedTo. simpl. f_equal. f_equal.
    apply List.filter_ext. intros q. f_equal.
    rewrite (firstContaining_geometry q _ watersheds); [done|].
    rewrite <- list_fmap_compose. done.
Qed.

Lemma aggregateByWatershed_length watersheds observations :
  length (aggregateByWatershed watersheds observations).1 = length watersheds.
Proof.
  rewrite aggregateByWatershed_unfold. simpl.
  assert (Hlen : forall (pts : list Pt) features,
    length (foldl (fun fs turfPt => countInFirst turfPt fs) features pts) = length features).
  { induction pts as [|q pts IH]; intros features; simpl; [done|].
    rewrite IH. rewrite <- (length_map geometry), countInFirst_geometry.
    apply length_map. }
  destruct (loop_outcome observations); simpl;
    rewrite ?length_map, Hlen; apply length_map.
Qed.

(** C1.  For one point the loop over the watersheds increments obsCount of
    the first watershed, in array order, that contains the point, and
    changes nothing else; when no watershed contains it the collection
    is unchanged.  After a call, the obsCount of each watershed is the
    number of processed points whose first containing watershed it is. *)
Theorem aggregateByWatershed_first_match watersheds observations (i : nat) (ws' : Feature Coords) :
  (aggregateByWatershed watersheds observations).1 !! i = Some ws' ->
  get_prop "obsCount" ws' = num_of_nat (assignedTo watersheds observations i) /\
  length (aggregateByWatershed watersheds observations).1 = length watersheds /\
  forall (turfPt : Pt) features,
    countInFirst turfPt features =
    match firstContaining turfPt features with
    | Some j => alter (incr_prop "obsCount") j features
    | None => features
    end.
Proof.
  intros Hi. split; [|split].
  - assert (is_Some (watersheds !! i)) as [ws Hws].
    { apply lookup_lt_is_Some. rewrite <- (aggregateByWatershed_length _ observations).
      by eapply lookup_lt_Some. }
    destruct (counted_lookup watersheds observations i ws Hws) as (w & H1 & _ & _ & H4).
    rewrite aggregateByWatershed_unfold in Hi. simpl in Hi.
    destruct (loop_outcome observations); simpl in Hi.
    + rewrite list_lookup_fmap, H1 in Hi. injection Hi as <-.
      by rewrite get_obsCount_setDensity.
    + rewrite H1 in Hi. by injection Hi as <-.
  - apply aggregateByWatershed_length.
  - apply countInFirst_firstContaining.
Qed.

End FirstMatch.

(** The point inside both overlapping watersheds is counted in the first
    one only. *)
Lemma aggregateByWatershed_first_match_witness :
  exists ws',
    (aggregateByWatershed Planar.ex_watersheds Planar.ex_observations).1 !! 1%nat = Some ws' /\
    get_prop "obsCount" ws' = num_of_nat 1.
Proof.
  eexists. split; [vm_compute; reflexivity|].
  refine (proj1 (aggregateByWatershed_first_match
                   Planar.ex_watersheds Planar.ex_observations 1 _ _)).
  vm_compute. reflexivity.
Defined.

(** ** aggregateByWatershed: density *)

Section Density.
Context {Coords Pt : Type} `{!Turf Coords Pt}.
Implicit Types (watersheds observations : list (Feature Coords)).

(** The density written for a watershed whose count is [n]. *)
Lemma setDensity_value (ws : Feature Coords) (n : nat) :
  get_prop "obsCount" ws = num_of_nat n ->
  get_prop "obsDensity" (setDensity ws) =
    match turf_area (geometry ws) with
    | Normal area =>
        if num_gt (areaKm2_of area) (Fin 0)
        then unary_plus (toFixed 2 (num_div (num_of_nat n) (areaKm2_of area)))
        else Fin 0
    | Throw => Fin 0
    end.
Proof.
  intros Hn. unfold setDensity.
  destruct (turf_area (geometry ws)); rewrite get_set_prop; by rewrite ?Hn.
Qed.

(** [+(n / areaKm2).toFixed(2)] for a count [n] and a positive area.  The
    quotient overflows to Infinity, and the density with it, or the
    density is the binary64 number nearest to a decimal [r] within 0.005
    of the quotient, finite and not negative. *)
Lemma density_value (n : nat) (areaKm2 : num) :
  num_gt areaKm2 (Fin 0) = true ->
  (num_div (num_of_nat n) areaKm2 = PInf /\
   unary_plus (toFixed 2 (num_div (num_of_nat n) areaKm2)) = PInf) \/
  (exists q r d,
     num_div (num_of_nat n) areaKm2 = Fin q /\ 0 <= q /\
     Qabs (r - q) <= 1 # 200 /\
     unary_plus (toFixed 2 (num_div (num_of_nat n) areaKm2)) = binary64 r /\
     binary64 r = Fin d /\ 0 <= d).
Proof.
  intros Hpos.
  destruct (proj1 (num_div_count n areaKm2 Hpos)) as [Hinf|(q & Hq & Hq0 & Hq1)].
  - left. by rewrite Hinf.
  - right. rewrite Hq.
    destruct (toFixed_below 2 q Hq0 Hq1) as (r & Hr & Hr0 & Hr1).
    destruct (toFixed_2_close q Hq0) as (r' & Hr' & Hclose).
    rewrite Hr in Hr'. injection Hr' as <-.
    pose proof binary64_overflow_pos as Hov.
    destruct (binary64_finite r) as (d & Hd & Hd0 & _); [lra|done|].
    exists q, r, d. rewrite Hr. simpl. repeat split; try done. by apply Hd0.
Qed.

(** C4, as the code has it.  After a call, every watershed's obsDensity is
    a number >= 0, never NaN.  When the call returns, which it does
    whenever [turf.point] accepts the coordinates of every observation,
    obsDensity is [+(obsCount / areaKm2).toFixed(2)] if [areaKm2], which
    is [turf.area(ws) / 1e6], is positive, and 0 if it is not positive or
    [turf.area] throws.  For a positive [areaKm2] the quotient
    obsCount / areaKm2 overflows to Infinity exactly when its exact value
    reaches 2^1024 - 2^970, and obsDensity is Infinity then; otherwise
    obsDensity is finite, the binary64 number nearest to a decimal within
    0.005 of the quotient. *)
Theorem aggregateByWatershed_density watersheds observations (i : nat) (ws' : Feature Coords) :
  (aggregateByWatershed watersheds observations).1 !! i = Some ws' ->
  num_le (Fin 0) (get_prop "obsDensity" ws') = true /\
  (forallb accepted observations = true ->
   (aggregateByWatershed watersheds observations).2 = Returned /\
   get_prop "obsDensity" ws' =
     match turf_area (geometry ws') with
     | Normal area =>
         if num_gt (areaKm2_of area) (Fin 0)
         then unary_plus (toFixed 2 (num_div (get_prop "obsCount" ws') (areaKm2_of area)))
         else Fin 0
     | Throw => Fin 0
     end /\
   forall area,
     turf_area (geometry ws') = Normal area ->
     num_gt (areaKm2_of area) (Fin 0) = true ->
     let quotient := num_div (get_prop "obsCount" ws') (areaKm2_of area) in
     (quotient = PInf <->
      exists n b, get_prop "obsCount" ws' = num_of_nat n /\ areaKm2_of area = Fin b /\
                  binary64_overflow <= inject_Z (Z.of_nat n) / b) /\
     ((quotient = PInf /\ get_prop "obsDensity" ws' = PInf) \/
      (exists q r d,
         quotient = Fin q /\ 0 <= q /\ Qabs (r - q) <= 1 # 200 /\
         get_prop "obsDensity" ws' = binary64 r /\ binary64 r = Fin d /\ 0 <= d))).
Proof.
  intros Hi.
  assert (is_Some (watersheds !! i)) as [ws Hws].
  { apply lookup_lt_is_Some. rewrite <- (aggregateByWatershed_length _ observations).
    by eapply lookup_lt_Some. }
  destruct (counted_lookup watersheds observations i ws Hws) as (w & H1 & H2 & H3 & H4).
  rewrite aggregateByWatershed_unfold in Hi |- *. simpl in Hi |- *.
  unfold loop_outcome in *.
  destruct (forallb accepted observations); simpl in Hi |- *.
  - rewrite list_lookup_fmap, H1 in Hi. injection Hi as <-.
    rewrite get_obsCount_setDensity, geometry_setDensity, (setDensity_value w _ H4), H4.
    set (n := assignedTo watersheds observations i).
    split.
    + destruct (turf_area (geometry w)) as [area|]; [|done].
      destruct (num_gt (areaKm2_of area) (Fin 0)) eqn:Hpos; [|done].
      destruct (density_value n _ Hpos) as [[_ ->]|(q & r & d & _ & _ & _ & -> & -> & Hd)];
        [done|by apply num_le_Fin].
    + intros _. split; [done|]. split; [done|].
      intros area Harea Hpos. rewrite Harea, Hpos. cbv zeta. split.
      * rewrite (proj2 (num_div_count n _ Hpos)). split.
        -- intros (b & Hb & Hge). by exists n, b.
        -- intros (n' & b & Hn' & Hb & Hge). apply num_of_nat_inj in Hn'. subst n'.
           by exists b.
      * apply density_value, Hpos.
  - rewrite H1 in Hi. injection Hi as <-. split; [|done]. by rewrite H3.
Qed.

End Density.

(** The first example watershed covers 3 km2 and holds one observation:
    its density is the binary64 number nearest to 0.33. *)
Lemma aggregateByWatershed_density_witness :
  exists ws',
    (aggregateByWatershed Planar.ex_watersheds Planar.ex_observations).1 !! 0%nat = Some ws' /\
    forallb accepted Planar.ex_observations = true /\
    get_prop "obsDensity" ws' = binary64 (33 # 100).
Proof.
  eexists. split; [vm_compute; reflexivity|]. split; [reflexivity|].
  refine (proj1 (proj2 (proj2 (aggregateByWatershed_density
            Planar.ex_watersheds Planar.ex_observations 0 _ _) _))).
  - vm_compute. reflexivity.
  - reflexivity.
Defined.

(** C4 as stated fails, in two ways.  The first example watershed has
    obsCount 1 and area 3 km2: its obsDensity is the binary64 number
    nearest to 0.33, not the quotient, which is the one nearest to 1/3.
    A watershed of 2^-1010 square metres that holds one observation has a
    positive area in km2, about 9.1e-311, and its obsDensity is
    Infinity. *)
Lemma aggregateByWatershed_density_counterexample :
  (exists ws' area,
     (aggregateByWatershed Planar.ex_watersheds Planar.ex_observations).2 = Returned /\
     (aggregateByWatershed Planar.ex_watersheds Planar.ex_observations).1 !! 0%nat = Some ws' /\
     turf_area (geometry ws') = Normal area /\
     areaKm2_of area = Fin 3 /\
     get_prop "obsCount" ws' = Fin 1 /\
     num_div (get_prop "obsCount" ws') (areaKm2_of area) = binary64 (1 # 3) /\
     get_prop "obsDensity" ws' = binary64 (33 # 100) /\
     get_prop "obsDensity" ws' <> num_div (get_prop "obsCount" ws') (areaKm2_of area)) /\
  (exists ws',
     aggregateByWatershed [Measured.polygon Measured.tiny_area] [Measured.observation]
       = ([ws'], Returned) /\
     num_gt (areaKm2_of Measured.tiny_area) (Fin 0) = true /\
     get_prop "obsCount" ws' = Fin 1 /\
     get_prop "obsDensity" ws' = PInf).
Proof.
  split.
  - eexists. eexists. split; [vm_compute; reflexivity|].
    split; [vm_compute; reflexivity|].
    split; [vm_compute; reflexivity|].
    repeat split; try (vm_compute; reflexivity).
    vm_compute. discriminate.
  - eexists. split; [vm_compute; reflexivity|].
    repeat split; vm_compute; reflexivity.
Defined.

(** ** scoreTrails: counting *)

Section Scoring.
Context {Coords Pt : Type} `{!Turf Coords Pt}.
Variable CONFIG : Analysis.
Implicit Types (features trails observations : list (Feature Coords)) (turfPt : Pt).

Lemma scoreNearby_near bufferKm turfPt (trail : Feature Coords) :
  scoreNearby bufferKm turfPt trail =
  if near bufferKm turfPt trail then incr_prop "obsNearby" trail else trail.
Proof.
  unfold scoreNearby, near.
  by destruct (turf_nearestPointOnLine (geometry trail) turfPt).
Qed.

Lemma geometry_scoreNearby bufferKm turfPt (trail : Feature Coords) :
  geometry (scoreNearby bufferKm turfPt trail) = geometry trail.
Proof. rewrite scoreNearby_near. by destruct (near bufferKm turfPt trail). Qed.

Lemma scoreObservations_foldl bufferKm observations features :
  scoreObservations bufferKm observations features =
  (foldl (fun fs turfPt => map (scoreNearby bufferKm turfPt) fs) features
     (reached observations),
   loop_outcome observations).
Proof.
  revert features. unfold loop_outcome.
  induction observations as [|pt rest IH]; intros features; simpl; [done|].
  unfold accepted.
  destruct (turf_point (coordinates (geometry pt))); simpl; [|done].
  apply IH.
Qed.

(** Every trail is scored on its own. *)
Lemma scoring_pointwise bufferKm (pts : list Pt) features :
  foldl (fun fs turfPt => map (scoreNearby bufferKm turfPt) fs) features pts =
  map (fun t => foldl (fun t turfPt => scoreNearby bufferKm turfPt t) t pts) features.
Proof.
  revert features. induction pts as [|p pts IH]; intros features; simpl.
  - by rewrite list_fmap_id.
  - rewrite IH, <- list_fmap_compose. done.
Qed.

Lemma scoring_one_trail bufferKm (pts : list Pt) (t : Feature Coords) (n : nat) :
  get_prop "obsNearby" t = num_of_nat n ->
  let t' := foldl (fun t turfPt => scoreNearby bufferKm turfPt t) t pts in
  geometry t' = geometry t /\
  (forall key, key <> "obsNearby" -> get_prop key t' = get_prop key t) /\
  get_prop "obsNearby" t' =
    num_of_nat (n + length (List.filter (fun turfPt => near bufferKm turfPt t) pts)).
Proof.
  revert t n. induction pts as [|p pts IH]; intros t n Hn; simpl.
  - by rewrite Nat.add_0_r.
  - assert (Hnear : forall q, near bufferKm q (scoreNearby bufferKm p t) = near bufferKm q t).
    { intros q. unfold near. by rewrite geometry_scoreNearby. }
    rewrite (List.filter_ext _ _ (fun q => eq_sym (Hnear q))).
    rewrite scoreNearby_near in *. destruct (near bufferKm p t) eqn:E.
    + destruct (IH (incr_prop "obsNearby" t) (S n)) as (H1 & H2 & H3).
      { rewrite get_incr_prop, Hn. apply num_of_nat_succ. }
      split; [done|]. split.
      * intros key Hk. rewrite (H2 key Hk). by apply get_set_prop_ne.
      * rewrite H3. simpl. f_equal. lia.
    + destruct (IH t n Hn) as (H1 & H2 & H3). done.
Qed.

Lemma scoreTrails_unfold trails observations bufferMeters :
  scoreTrails CONFIG trails observations bufferMeters =
  let scored :=
    map (fun t => foldl (fun t turfPt => scoreNearby (bufferKm_of CONFIG bufferMeters) turfPt t)
                    (resetTrail t) (reached observations)) trails in
  match loop_outcome observations with
  | Returned => (map (setScoreNorm (maxObs_of scored)) scored, Returned)
  | Thrown => (scored, Thrown)
  end.
Proof.
  unfold scoreTrails. rewrite scoreObservations_foldl, scoring_pointwise.
  rewrite (List.map_map resetTrail
             (fun t => foldl (fun t turfPt =>
                scoreNearby (bufferKm_of CONFIG bufferMeters) turfPt t) t (reached observations))).
  by destruct (loop_outcome observations).
Qed.

(** The state of a trail when the scoring loop ends. *)
Lemma scored_trail bufferKm observations (t : Feature Coords) :
  let t' := foldl (fun t turfPt => scoreNearby bufferKm turfPt t)
              (resetTrail t) (reached observations) in
  geometry t' = geometry t /\
  get_prop "scoreNorm" t' = Fin 0 /\
  get_prop "obsNearby" t' = num_of_nat (nearbyOf bufferKm observations t).
Proof.
  destruct (scoring_one_trail bufferKm (reached observations) (resetTrail t) 0)
    as (H1 & H2 & H3).
  { unfold resetTrail. rewrite get_set_prop_ne by done. apply get_set_prop. }
  simpl. split; [done|]. split.
  - rewrite H2 by done. apply get_set_prop.
  - rewrite H3. done.
Qed.

Lemma get_obsNearby_setScoreNorm maxObs (t : Feature Coords) :
  get_prop "obsNearby" (setScoreNorm maxObs t) = get_prop "obsNearby" t.
Proof. unfold setScoreNorm. by rewrite get_set_prop_ne. Qed.

Lemma scoreTrails_length trails observations bufferMeters :
  length (scoreTrails CONFIG trails observations bufferMeters).1 = length trails.
Proof.
  rewrite scoreTrails_unfold. simpl.
  destruct (loop_outcome observations); simpl; by rewrite ?length_map.
Qed.

Lemma scoreTrails_lookup trails observations bufferMeters j (t' : Feature Coords) :
  (scoreTrails CONFIG trails observations bufferMeters).1 !! j = Some t' ->
  exists t,
    trails !! j = Some t /\
    geometry t' = geometry t /\
    get_prop "obsNearby" t' =
      num_of_nat (nearbyOf (bufferKm_of CONFIG bufferMeters) observations t).
Proof.
  rewrite scoreTrails_unfold. simpl.
  destruct (loop_outcome observations); simpl;
    rewrite ?list_lookup_fmap; destruct (trails !! j) as [t|]; simpl; try done;
    intros [= <-]; exists t; (split; [done|]);
    destruct (scored_trail (bufferKm_of CONFIG bufferMeters) observations t) as (H1 & H2 & H3).
  - by rewrite get_obsNearby_setScoreNorm.
  - done.
Qed.

Lemma scoreTrails_lookup_of trails observations bufferMeters j (t : Feature Coords) :
  trails !! j = Some t ->
  exists t',
    (scoreTrails CONFIG trails observations bufferMeters).1 !! j = Some t' /\
    geometry t' = geometry t /\
    get_prop "obsNearby" t' =
      num_of_nat (nearbyOf (bufferKm_of CONFIG bufferMeters) observations t).
Proof.
  intros Hj.
  destruct (lookup_lt_is_Some_2 (scoreTrails CONFIG trails observations bufferMeters).1 j)
    as [t' Ht'].
  { rewrite scoreTrails_length. by eapply lookup_lt_Some. }
  exists t'. split; [done|].
  destruct (scoreTrails_lookup _ _ _ _ _ Ht') as (t0 & Ht0 & Hg & Hn).
  rewrite Hj in Ht0. by injection Ht0 as <-.
Qed.

(** C2.  After a call, the obsNearby of every trail is the number of
    processed points whose nearest-point distance to that trail is at most
    the buffer, whatever the other trails are: for one point, every trail
    of the collection is tested and each trail within the buffer is
    incremented.  In the example one observation is counted for both of
    the trails that pass within 100 m of it. *)
Theorem scoreTrails_counts_every_trail trails observations bufferMeters (j : nat)
    (t : Feature Coords) :
  trails !! j = Some t ->
  (exists t',
     (scoreTrails CONFIG trails observations bufferMeters).1 !! j = Some t' /\
     geometry t' = geometry t /\
     get_prop "obsNearby" t' =
       num_of_nat (nearbyOf (bufferKm_of CONFIG bufferMeters) observations t)) /\
  (forall bufferKm (pt : Feature Coords) turfPt (more features : list (Feature Coords)),
     turf_point (coordinates (geometry pt)) = Normal turfPt ->
     scoreObservations bufferKm (pt :: more) features =
     scoreObservations bufferKm more
       (map (fun trail => if near bufferKm turfPt trail
                          then incr_prop "obsNearby" trail else trail) features)) /\
  map (get_prop "obsNearby")
    (scoreTrails CONFIG_analysis Planar.ex_trails [Planar.observation 10 10] None).1
  = [Fin 1; Fin 1; Fin 0].
Proof.
  intros Hj. split; [|split; [|by vm_compute]].
  - by apply scoreTrails_lookup_of.
  - intros bufferKm pt turfPt more features Hpt. simpl. rewrite Hpt.
    f_equal. apply map_ext. intros trail. apply scoreNearby_near.
Qed.

End Scoring.

(** The second example trail has one observation within 100 m. *)
Lemma scoreTrails_counts_every_trail_witness :
  exists t',
    (scoreTrails CONFIG_analysis Planar.ex_trails Planar.ex_observations None).1 !! 1%nat
      = Some t' /\
    get_prop "obsNearby" t' = num_of_nat 1.
Proof.
  destruct (proj1 (scoreTrails_counts_every_trail CONFIG_analysis
                     Planar.ex_trails Planar.ex_observations None 1
                     (Planar.line [(0, 50); (1000, 50)]%Z) eq_refl))
    as (t' & Ht' & _ & Hn).
  exists t'. split; [exact Ht'|].
  replace 1%nat with (nearbyOf (bufferKm_of CONFIG_analysis None) Planar.ex_observations
                        (Planar.line [(0, 50); (1000, 50)]%Z))
    by (vm_compute; reflexivity).
  exact Hn.
Defined.

(** ** scoreTrails: normalisation *)

Section Normalisation.
Context {Coords Pt : Type} `{!Turf Coords Pt}.
Variable CONFIG : Analysis.
Implicit Types (features trails observations : list (Feature Coords)).

Lemma obsNearby_scoredTrails bufferKm trails observations :
  map (get_prop "obsNearby") (scoredTrails bufferKm trails observations) =
  map num_of_nat (map (nearbyOf bufferKm observations) trails).
Proof.
  unfold scoredTrails. rewrite !List.map_map. apply map_ext. intros t.
  by destruct (scored_trail bufferKm observations t) as (_ & _ & ->).
Qed.

(** Line 126: the normaliser is the largest count, and at least 1. *)
Lemma maxObs_of_scoredTrails bufferKm trails observations :
  maxObs_of (scoredTrails bufferKm trails observations) =
  num_of_nat (foldr Nat.max 1%nat (map (nearbyOf bufferKm observations) trails)).
Proof.
  unfold maxObs_of. rewrite obsNearby_scoredTrails.
  apply (Math_max_of_nat 1).
Qed.

Lemma maxObs_of_setScoreNorm maxObs features :
  maxObs_of (map (setScoreNorm maxObs) features) = maxObs_of features.
Proof.
  unfold maxObs_of. f_equal. f_equal. rewrite List.map_map. apply map_ext.
  intros t. apply get_obsNearby_setScoreNorm.
Qed.

Lemma get_scoreNorm_setScoreNorm maxObs (t : Feature Coords) :
  get_prop "scoreNorm" (setScoreNorm maxObs t) =
  unary_plus (toFixed 3 (num_div (get_prop "obsNearby" t) maxObs)).
Proof. apply get_set_prop. Qed.

(** C3.  After a call, every trail's scoreNorm is a number between 0 and
    1.  When the call returns, which it does whenever [turf.point] accepts
    the coordinates of every observation, the normaliser [maxObs] is the
    maximum of 1 and of the obsNearby of all trails, hence at least 1 and
    never a zero divisor; every scoreNorm is
    [+(obsNearby / maxObs).toFixed(3)]; and if some trail has
    obsNearby > 0 then some trail has scoreNorm exactly 1. *)
Theorem scoreTrails_scoreNorm_bounded trails observations bufferMeters (j : nat)
    (t' : Feature Coords) :
  let result := scoreTrails CONFIG trails observations bufferMeters in
  result.1 !! j = Some t' ->
  (num_le (Fin 0) (get_prop "scoreNorm" t') = true /\
   num_le (get_prop "scoreNorm" t') (Fin 1) = true) /\
  (forallb accepted observations = true ->
   result.2 = Returned /\
   (exists m,
      maxObs_of result.1 = num_of_nat m /\
      m = foldr Nat.max 1%nat
            (map (nearbyOf (bufferKm_of CONFIG bufferMeters) observations) trails) /\
      (1 <= m)%nat /\
      (forall k t, result.1 !! k = Some t ->
         num_le (get_prop "obsNearby" t) (num_of_nat m) = true)) /\
   get_prop "scoreNorm" t' =
     unary_plus (toFixed 3 (num_div (get_prop "obsNearby" t') (maxObs_of result.1))) /\
   ((exists k t, result.1 !! k = Some t /\ num_gt (get_prop "obsNearby" t) (Fin 0) = true) ->
    exists k t, result.1 !! k = Some t /\ get_prop "scoreNorm" t = Fin 1)).
Proof.
  intros result Hj. subst result.
  set (bufferKm := bufferKm_of CONFIG bufferMeters) in *.
  set (ns := map (nearbyOf bufferKm observations) trails).
  set (m := foldr Nat.max 1%nat ns).
  destruct (foldr_max_ge 1 ns) as [Hm1 Hmax]. fold m in Hm1, Hmax.
  rewrite scoreTrails_unfold in Hj |- *.
  fold bufferKm in Hj |- *. fold (scoredTrails bufferKm trails observations) in Hj |- *.
  cbv zeta in Hj |- *.
  pose proof (maxObs_of_scoredTrails bufferKm trails observations) as Hmo.
  fold ns in Hmo. fold m in Hmo.
  (* the state of each scored trail *)
  assert (Hsc : forall k t, scoredTrails bufferKm trails observations !! k = Some t ->
            exists n, ns !! k = Some n /\ get_prop "obsNearby" t = num_of_nat n /\
                      get_prop "scoreNorm" t = Fin 0).
  { intros k t. unfold scoredTrails, ns. rewrite !list_lookup_fmap.
    destruct (trails !! k) as [t0|]; simpl; [|done]. intros [= <-].
    destruct (scored_trail bufferKm observations t0) as (_ & H2 & H3).
    eexists. split; [done|]. done. }
  (* the normalised score of a trail with count n *)
  assert (Hnorm : forall n, (n <= m)%nat ->
            exists r, unary_plus (toFixed 3 (num_div (num_of_nat n) (num_of_nat m))) = Fin r /\
                      0 <= r <= 1).
  { intros n Hn. by apply score_unit. }
  unfold loop_outcome in *.
  destruct (forallb accepted observations); simpl in Hj |- *.
  - rewrite list_lookup_fmap in Hj.
    destruct (scoredTrails bufferKm trails observations !! j) as [t|] eqn:Ht; [|done].
    injection Hj as <-.
    destruct (Hsc j t Ht) as (n & Hn & Hcount & _).
    rewrite get_scoreNorm_setScoreNorm, get_obsNearby_setScoreNorm.
    rewrite maxObs_of_setScoreNorm, Hmo, Hcount.
    destruct (Hnorm n (Hmax j n Hn)) as (r & Hr & Hr0 & Hr1).
    split; [rewrite Hr; by rewrite !num_le_Fin|].
    intros _. split; [done|]. split; [|split; [done|]].
    + exists m. split; [done|]. split; [done|]. split; [done|].
      intros k t0. rewrite list_lookup_fmap.
      destruct (scoredTrails bufferKm trails observations !! k) as [t1|] eqn:Ht1; [|done].
      intros [= <-]. destruct (Hsc k t1 Ht1) as (n1 & Hn1 & Hc1 & _).
      rewrite get_obsNearby_setScoreNorm, Hc1. apply num_le_of_nat. by eapply Hmax.
    + intros (k & t0 & Hk & Hpos). rewrite list_lookup_fmap in Hk.
      destruct (scoredTrails bufferKm trails observations !! k) as [t1|] eqn:Ht1; [|done].
      injection Hk as <-. destruct (Hsc k t1 Ht1) as (n1 & Hn1 & Hc1 & _).
      rewrite get_obsNearby_setScoreNorm, Hc1 in Hpos.
      apply (num_lt_of_nat 0 n1) in Hpos.
      (* the maximum is attained by some trail *)
      assert (exists k', ns !! k' = Some m) as [k' Hk'].
      { destruct (foldr_max_attained 1 ns) as [E|[k' E]]; fold m in E; [|by exists k'].
        exists k. rewrite Hn1. f_equal. specialize (Hmax k n1 Hn1). lia. }
      assert (is_Some (scoredTrails bufferKm trails observations !! k')) as [t2 Ht2].
      { apply lookup_lt_is_Some. unfold scoredTrails. rewrite length_map.
        apply lookup_lt_Some in Hk'. unfold ns in Hk'. by rewrite length_map in Hk'. }
      destruct (Hsc k' t2 Ht2) as (n2 & Hn2 & Hc2 & _).
      rewrite Hk' in Hn2. injection Hn2 as <-.
      exists k', (setScoreNorm (num_of_nat m) t2). split.
      * by rewrite list_lookup_fmap, Ht2.
      * rewrite get_scoreNorm_setScoreNorm, Hc2. by apply score_one.
  - destruct (Hsc j t' Hj) as (n & _ & _ & ->). done.
Qed.

End Normalisation.

(** Both trails near the observation get scoreNorm 1. *)
Lemma scoreTrails_scoreNorm_bounded_witness :
  exists t',
    (scoreTrails CONFIG_analysis Planar.ex_trails Planar.ex_observations None).1 !! 0%nat
      = Some t' /\
    forallb accepted Planar.ex_observations = true /\
    num_le (Fin 0) (get_prop "scoreNorm" t') = true /\
    num_le (get_prop "scoreNorm" t') (Fin 1) = true /\
    exists k t,
      (scoreTrails CONFIG_analysis Planar.ex_trails Planar.ex_observations None).1 !! k
        = Some t /\
      get_prop "scoreNorm" t = Fin 1.
Proof.
  destruct ((scoreTrails CONFIG_analysis Planar.ex_trails Planar.ex_observations None).1
              !! 0%nat) as [t'|] eqn:E; [|by vm_compute in E].
  exists t'. split; [done|]. split; [reflexivity|].
  destruct (scoreTrails_scoreNorm_bounded CONFIG_analysis
              Planar.ex_trails Planar.ex_observations None 0 t' E) as [[H0 H1] H].
  split; [exact H0|]. split; [exact H1|].
  destruct (H eq_refl) as (_ & _ & _ & Hone). apply Hone.
  exists 0%nat, t'. split; [exact E|].
  clear -E. vm_compute in E. injection E as <-. vm_compute. reflexivity.
Defined.

(** ** Runs do not accumulate *)

Section Idempotence.
Context {Coords Pt : Type} `{!Turf Coords Pt}.
Variable CONFIG : Analysis.
Implicit Types (features watersheds trails observations : list (Feature Coords)).

(** A reset erases whatever an earlier run wrote. *)
Lemma reset_after_set key1 key2 key v (f : Feature Coords) :
  key = key1 \/ key = key2 ->
  set_prop key2 (Fin 0) (set_prop key1 (Fin 0) (set_prop key v f)) =
  set_prop key2 (Fin 0) (set_prop key1 (Fin 0) f).
Proof.
  intros [->| ->].
  - by rewrite set_set_prop.
  - destruct (decide (key2 = key1)) as [->|Hne]; [by rewrite !set_set_prop|].
    rewrite (set_prop_commute key1 key2) by done. by rewrite set_set_prop.
Qed.

Lemma resetWatershed_countInFirst (turfPt : Pt) features :
  map resetWatershed (countInFirst turfPt features) = map resetWatershed features.
Proof.
  induction features as [|ws rest IH]; simpl; [done|].
  destruct (turf_booleanPointInPolygon turfPt (geometry ws)) as [[|]|]; simpl;
    rewrite ?IH; [|done..].
  f_equal. apply reset_after_set. by left.
Qed.

Lemma resetWatershed_setDensity (ws : Feature Coords) :
  resetWatershed (setDensity ws) = resetWatershed ws.
Proof.
  unfold setDensity.
  destruct (turf_area (geometry ws)); apply reset_after_set; by right.
Qed.

Lemma resetWatershed_idemp (ws : Feature Coords) :
  resetWatershed (resetWatershed ws) = resetWatershed ws.
Proof.
  unfold resetWatershed.
  rewrite (reset_after_set "obsCount" "obsDensity" "obsDensity") by (by right).
  by rewrite set_set_prop.
Qed.

Lemma resetWatershed_aggregate watersheds observations :
  map resetWatershed (aggregateByWatershed watersheds observations).1 =
  map resetWatershed watersheds.
Proof.
  rewrite aggregateByWatershed_unfold. cbv zeta.
  assert (Hfold : forall (pts : list Pt) features,
    map resetWatershed (foldl (fun fs turfPt => countInFirst turfPt fs) features pts) =
    map resetWatershed features).
  { induction pts as [|p pts IH]; intros features; simpl; [done|].
    by rewrite IH, resetWatershed_countInFirst. }
  destruct (loop_outcome observations); simpl.
  - rewrite List.map_map.
    rewrite (map_ext _ resetWatershed resetWatershed_setDensity), Hfold.
    rewrite List.map_map. apply map_ext, resetWatershed_idemp.
  - rewrite Hfold, List.map_map. apply map_ext, resetWatershed_idemp.
Qed.

Lemma resetTrail_scoreNearby bufferKm (turfPt : Pt) (t : Feature Coords) :
  resetTrail (scoreNearby bufferKm turfPt t) = resetTrail t.
Proof.
  rewrite scoreNearby_near. destruct (near bufferKm turfPt t); [|done].
  apply reset_after_set. by left.
Qed.

Lemma resetTrail_setScoreNorm maxObs (t : Feature Coords) :
  resetTrail (setScoreNorm maxObs t) = resetTrail t.
Proof. apply reset_after_set. by right. Qed.

Lemma resetTrail_idemp (t : Feature Coords) : resetTrail (resetTrail t) = resetTrail t.
Proof.
  unfold resetTrail.
  rewrite (reset_after_set "obsNearby" "scoreNorm" "scoreNorm") by (by right).
  by rewrite set_set_prop.
Qed.

Lemma resetTrail_scoreTrails trails observations bufferMeters :
  map resetTrail (scoreTrails CONFIG trails observations bufferMeters).1 =
  map resetTrail trails.
Proof.
  rewrite scoreTrails_unfold. cbv zeta.
  assert (Hfold : forall bufferKm (pts : list Pt) (t : Feature Coords),
    resetTrail (foldl (fun t turfPt => scoreNearby bufferKm turfPt t) t pts) = resetTrail t).
  { intros bufferKm. induction pts as [|p pts IH]; intros t; simpl; [done|].
    by rewrite IH, resetTrail_scoreNearby. }
  destruct (loop_outcome observations); simpl; rewrite !List.map_map; apply map_ext;
    intros t; rewrite ?resetTrail_setScoreNorm, Hfold; apply resetTrail_idemp.
Qed.

(** C8.  Running aggregateByWatershed, or scoreTrails, a second time on
    the features the first run left, with the same observations and
    buffer, leaves every feature, and so every metric, as the first run
    left it, and ends the same way. *)
Theorem second_run_changes_nothing watersheds trails observations bufferMeters :
  aggregateByWatershed (aggregateByWatershed watersheds observations).1 observations
    = aggregateByWatershed watersheds observations /\
  scoreTrails CONFIG (scoreTrails CONFIG trails observations bufferMeters).1
      observations bufferMeters
    = scoreTrails CONFIG trails observations bufferMeters.
Proof.
  split.
  - unfold aggregateByWatershed at 1 3. by rewrite resetWatershed_aggregate.
  - unfold scoreTrails at 1 3. by rewrite resetTrail_scoreTrails.
Qed.

End Idempotence.

(** ** scoreTrails: the buffer argument *)

Section Buffer.
Context {Coords Pt : Type} `{!Turf Coords Pt}.
Implicit Types (features trails observations : list (Feature Coords)).

Lemma bufferKm_of_falsy (cfg : Analysis) (bufferMeters : option num) :
  to_boolean bufferMeters = false ->
  bufferKm_of cfg bufferMeters = bufferKm_of cfg (Some (trailBufferMeters cfg)).
Proof.
  intros Hf. unfold bufferKm_of. rewrite Hf.
  by destruct (to_boolean (Some (trailBufferMeters cfg))).
Qed.

(** A negative bufferMeters is truthy, so it is the number divided by
    1000; the quotient is negative, unless it underflows to 0. *)
Lemma bufferKm_of_negative (cfg : Analysis) (bufferMeters : option num) :
  num_lt (to_number bufferMeters) (Fin 0) = true ->
  bufferKm_of cfg bufferMeters = num_div (to_number bufferMeters) (fin_Z 1000) /\
  (bufferKm_of cfg bufferMeters = Fin 0 \/
   num_lt (bufferKm_of cfg bufferMeters) (Fin 0) = true).
Proof.
  intros Hneg. unfold bufferKm_of.
  assert (to_boolean bufferMeters = true) as ->.
  { destruct bufferMeters as [[| | |q]|]; try done. simpl.
    apply num_lt_Fin in Hneg. apply negb_true_iff.
    destruct (Qeq_bool q 0) eqn:E; [|done].
    apply Qeq_bool_eq in E. rewrite E in Hneg. by apply Qlt_irrefl in Hneg. }
  split; [done|].
  destruct bufferMeters as [[| | |q]|]; try done; [by right|].
  apply num_lt_Fin in Hneg. simpl to_number.
  destruct (Qlt_le_dec (q * two_pow 1075) (- (1000))) as [Hlt|Hge].
  - right. by apply num_div_1000_negative.
  - left. apply num_div_1000_zero. rewrite (Qabs_neg q) by lra.
    setoid_replace (- q * two_pow 1075) with (- (q * two_pow 1075)) using relation Qeq
      by ring.
    lra.
Qed.

(** The buffer in kilometres is 0 only by underflow. *)
Lemma bufferKm_of_zero (bufferMeters : option num) :
  bufferKm_of CONFIG_analysis bufferMeters = Fin 0 <->
  exists q, bufferMeters = Some (Fin q) /\ ~ q == 0 /\ Qabs q * two_pow 1075 <= 1000.
Proof.
  unfold bufferKm_of. destruct (to_boolean bufferMeters) eqn:E.
  - destruct bufferMeters as [[| | |q]|]; try done.
    + split; [done|]. by intros (q & [=] & _).
    + split; [done|]. by intros (q & [=] & _).
    + simpl in E. apply negb_true_iff in E. apply Qeq_bool_neq in E.
      simpl to_number. rewrite num_div_1000_zero. split.
      * intros Hq. by exists q.
      * by intros (q' & [= <-] & _ & Hq).
  - split; [by vm_compute|].
    intros (q & -> & Hq & _). simpl in E. apply negb_false_iff in E.
    apply Qeq_bool_eq in E. done.
Qed.

(** With a negative buffer no point is near any trail. *)
Lemma nearbyOf_negative (bufferKm : num) observations (t : Feature Coords) :
  distances_not_negative ->
  num_lt bufferKm (Fin 0) = true ->
  nearbyOf bufferKm observations t = 0%nat.
Proof.
  intros Hdist Hneg. unfold nearbyOf.
  induction (reached observations) as [|p pts IH]; [done|]. simpl.
  assert (near bufferKm p t = false) as ->; [|done].
  unfold near. destruct (turf_nearestPointOnLine (geometry t) p) as [d|] eqn:E; [|done].
  apply num_le_negative_buffer; [|done]. by eapply Hdist.
Qed.

(** C10, as the code has it.  A falsy bufferMeters (0, undefined, NaN)
    gives the result of the configured default of 100 m.  The buffer in
    kilometres is 0 exactly for a bufferMeters that is not 0 and has a
    magnitude of at most 1000 * 2^-1075, about 2.5e-321: its quotient by
    1000 underflows.  A negative bufferMeters is used as given and, its
    quotient not being 0 and distances not being negative, leaves every
    trail with obsNearby = 0 and scoreNorm = 0. *)
Theorem scoreTrails_buffer_default trails observations :
  distances_not_negative ->
  (forall bufferMeters,
     to_boolean bufferMeters = false ->
     scoreTrails CONFIG_analysis trails observations bufferMeters =
     scoreTrails CONFIG_analysis trails observations (Some (fin_Z 100))) /\
  (to_boolean (Some (Fin 0)) = false /\ to_boolean None = false /\
   to_boolean (Some NaN) = false) /\
  (forall bufferMeters,
     bufferKm_of CONFIG_analysis bufferMeters = Fin 0 <->
     exists q, bufferMeters = Some (Fin q) /\ ~ q == 0 /\
               Qabs q * two_pow 1075 <= 1000) /\
  (forall bufferMeters,
     num_lt (to_number bufferMeters) (Fin 0) = true ->
     bufferKm_of CONFIG_analysis bufferMeters = num_div (to_number bufferMeters) (fin_Z 1000) /\
     (bufferKm_of CONFIG_analysis bufferMeters <> Fin 0 ->
      forall j t',
        (scoreTrails CONFIG_analysis trails observations bufferMeters).1 !! j = Some t' ->
        get_prop "obsNearby" t' = Fin 0 /\ get_prop "scoreNorm" t' = Fin 0)).
Proof.
  intros Hdist. split; [|split; [done|split; [apply bufferKm_of_zero|]]].
  - intros bufferMeters Hf. unfold scoreTrails.
    by rewrite (bufferKm_of_falsy CONFIG_analysis bufferMeters Hf).
  - intros bufferMeters Hneg.
    destruct (bufferKm_of_negative CONFIG_analysis bufferMeters Hneg) as [Hb Hsign].
    split; [done|]. intros Hnz j t' Hj.
    destruct Hsign as [Hzero|Hbneg]; [done|].
    destruct (scoreTrails_lookup _ _ _ _ _ _ Hj) as (t & Ht & _ & Hn).
    rewrite (nearbyOf_negative _ _ _ Hdist Hbneg) in Hn. split; [done|].
    rewrite scoreTrails_unfold in Hj. cbv zeta in Hj.
    fold (scoredTrails (bufferKm_of CONFIG_analysis bufferMeters) trails observations) in Hj.
    destruct (loop_outcome observations); simpl in Hj.
    + rewrite list_lookup_fmap in Hj.
      destruct (scoredTrails _ trails observations !! j) as [t1|] eqn:Ht1; [|done].
      injection Hj as <-.
      rewrite get_obsNearby_setScoreNorm in Hn.
      rewrite get_scoreNorm_setScoreNorm, Hn, maxObs_of_scoredTrails.
      pose proof (proj1 (foldr_max_ge 1 (map (nearbyOf (bufferKm_of CONFIG_analysis bufferMeters)
                                               observations) trails))) as Hm.
      by apply score_zero.
    + unfold scoredTrails in Hj. rewrite list_lookup_fmap, Ht in Hj.
      injection Hj as <-.
      by destruct (scored_trail (bufferKm_of CONFIG_analysis bufferMeters) observations t)
        as (_ & -> & _).
Qed.

(** C5, as the code has it.  No value of bufferMeters is rejected: how the
    call ends depends on the observations only (it returns exactly when
    [turf.point] accepts the coordinates of each of them), and in either
    case the trails have been reset and counted with the buffer
    [bufferKm_of bufferMeters]. *)
Theorem scoreTrails_accepts_any_buffer (cfg : Analysis) trails observations
    (bufferMeters : option num) (j : nat) (t : Feature Coords) :
  trails !! j = Some t ->
  (scoreTrails cfg trails observations bufferMeters).2 = loop_outcome observations /\
  exists t',
    (scoreTrails cfg trails observations bufferMeters).1 !! j = Some t' /\
    get_prop "obsNearby" t' =
      num_of_nat (nearbyOf (bufferKm_of cfg bufferMeters) observations t).
Proof.
  intros Hj. split.
  - rewrite scoreTrails_unfold. cbv zeta. by destruct (loop_outcome observations).
  - destruct (scoreTrails_lookup_of cfg trails observations bufferMeters j t Hj)
      as (t' & H1 & _ & H2).
    by exists t'.
Qed.

End Buffer.

(** ** The planar library *)

Lemma planar_distances_not_negative :
  @distances_not_negative Planar.Coords Planar.Position Planar.turf.
Proof.
  intros g p d. simpl. unfold Planar.nearestPointOnLine.
  destruct (coordinates g) as [|v vs]; [done|].
  destruct (String.eqb (gtype g) "LineString"); [|done].
  intros [= <-]. apply negb_false_iff, Qle_bool_iff. rewrite Qred_correct.
  apply Qle_shift_div_l; [done|]. rewrite Qmult_0_l, <- (Zle_Qle 0).
  assert (Hd : forall q, (0 <= Planar.axis_distance p q)%Z)
    by (intros q; unfold Planar.axis_distance; lia).
  induction vs as [|w vs IH]; simpl; [apply Hd|].
  specialize (Hd w). lia.
Qed.

Lemma scoreTrails_buffer_default_witness :
  @distances_not_negative Planar.Coords Planar.Position Planar.turf /\
  scoreTrails CONFIG_analysis Planar.ex_trails Planar.ex_observations (Some (Fin 0)) =
  scoreTrails CONFIG_analysis Planar.ex_trails Planar.ex_observations (Some (fin_Z 100)) /\
  forall j t',
    (scoreTrails CONFIG_analysis Planar.ex_trails Planar.ex_observations
       (Some (fin_Z (-5)))).1 !! j = Some t' ->
    get_prop "obsNearby" t' = Fin 0 /\ get_prop "scoreNorm" t' = Fin 0.
Proof.
  destruct (scoreTrails_buffer_default Planar.ex_trails Planar.ex_observations
              planar_distances_not_negative) as (H1 & _ & _ & H4).
  split; [exact planar_distances_not_negative|]. split.
  - apply H1. reflexivity.
  - apply (H4 (Some (fin_Z (-5)))); [reflexivity|].
    vm_compute. discriminate.
Defined.

(** C10 as stated fails.  The smallest positive number, 2^-1074, is
    truthy, and dividing it by 1000 gives 0: the call asks for a buffer of
    radius 0, which counts the observation that lies on the trail and not
    the one a metre away.  Its negative gives the same buffer, so that a
    negative bufferMeters leaves a trail with obsNearby = 1 and
    scoreNorm = 1. *)
Lemma scoreTrails_buffer_default_counterexample :
  let smallest := Fin (1 / two_pow 1074) in
  let trails := [Planar.line [(0, 0); (1000, 0)]%Z; Planar.line [(0, 1); (1000, 1)]%Z] in
  let observations := [Planar.observation 0 0] in
  (to_boolean (Some smallest) = true /\
   bufferKm_of CONFIG_analysis (Some smallest) = Fin 0 /\
   map (get_prop "obsNearby")
     (scoreTrails CONFIG_analysis trails observations (Some smallest)).1 = [Fin 1; Fin 0]) /\
  (num_lt (num_neg smallest) (Fin 0) = true /\
   bufferKm_of CONFIG_analysis (Some (num_neg smallest)) = Fin 0 /\
   (scoreTrails CONFIG_analysis trails observations (Some (num_neg smallest))).2 = Returned /\
   map (get_prop "obsNearby")
     (scoreTrails CONFIG_analysis trails observations (Some (num_neg smallest))).1
     = [Fin 1; Fin 0] /\
   map (get_prop "scoreNorm")
     (scoreTrails CONFIG_analysis trails observations (Some (num_neg smallest))).1
     = [Fin 1; Fin 0]).
Proof.
  repeat split; vm_compute; reflexivity.
Defined.

Lemma scoreTrails_accepts_any_buffer_witness :
  Planar.ex_trails !! 0%nat = Some (Planar.line [(0, 0); (1000, 0)]%Z) /\
  (scoreTrails CONFIG_analysis Planar.ex_trails Planar.ex_observations
     (Some (fin_Z (-5)))).2 = loop_outcome Planar.ex_observations.
Proof.
  split; [reflexivity|].
  exact (proj1 (scoreTrails_accepts_any_buffer CONFIG_analysis
                  Planar.ex_trails Planar.ex_observations (Some (fin_Z (-5)))
                  0 (Planar.line [(0, 0); (1000, 0)]%Z) eq_refl)).
Defined.

(** C5 as stated fails: called with a buffer of -5 m, and with 0 m, on
    trails that carry the metrics of an earlier run, scoreTrails returns
    normally, and the call with -5 m has overwritten the metrics. *)
Lemma scoreTrails_accepts_any_buffer_counterexample :
  map (get_prop "obsNearby") ex_trails_scored = [Fin 1; Fin 1; Fin 0] /\
  (scoreTrails CONFIG_analysis ex_trails_scored Planar.ex_observations
     (Some (fin_Z (-5)))).2 = Returned /\
  map (get_prop "obsNearby")
    (scoreTrails CONFIG_analysis ex_trails_scored Planar.ex_observations
       (Some (fin_Z (-5)))).1 = [Fin 0; Fin 0; Fin 0] /\
  (scoreTrails CONFIG_analysis ex_trails_scored Planar.ex_observations
     (Some (Fin 0))).2 = Returned.
Proof.
  repeat split; vm_compute; reflexivity.
Defined.

(** ** Malformed geometry *)

Section Malformed.
Context {Coords Pt : Type} `{T : !Turf Coords Pt}.
Implicit Types (features watersheds trails observations : list (Feature Coords)).

(** What the [try] blocks do: an exception thrown by the containment
    test, the area or the nearest-point distance has the effect of the
    safe answer. *)
Lemma failures_in_try_are_skipped (cfg : Analysis) watersheds trails observations
    (bufferMeters : option num) :
  aggregateByWatershed watersheds observations =
    @aggregateByWatershed Coords Pt skipFailures watersheds observations /\
  (bufferKm_of cfg bufferMeters <> PInf ->
   scoreTrails cfg trails observations bufferMeters =
     @scoreTrails Coords Pt skipFailures cfg trails observations bufferMeters).
Proof.
  split.
  - unfold aggregateByWatershed.
    assert (Hin : forall p features,
      countInFirst p features = @countInFirst Coords Pt skipFailures p features).
    { intros p. induction features as [|ws rest IH]; simpl; [done|].
      destruct (turf_booleanPointInPolygon p (geometry ws)) as [[|]|]; by rewrite ?IH. }
    assert (Hobs : forall points features,
      countObservations points features =
      @countObservations Coords Pt skipFailures points features).
    { induction points as [|pt rest IH]; intros features; simpl; [done|].
      destruct (turf_point (coordinates (geometry pt))); [|done].
      by rewrite IH, Hin. }
    rewrite <- Hobs.
    destruct (countObservations observations (map resetWatershed watersheds)) as [counted []];
      [|done].
    f_equal. apply map_ext. intros ws. unfold setDensity. simpl.
    by destruct (turf_area (geometry ws)).
  - intros Hb. unfold scoreTrails.
    set (bufferKm := bufferKm_of cfg bufferMeters) in *.
    assert (Hone : forall p t,
      scoreNearby bufferKm p t = @scoreNearby Coords Pt skipFailures bufferKm p t).
    { intros p t. unfold scoreNearby. simpl.
      destruct (turf_nearestPointOnLine (geometry t) p); [done|].
      by destruct bufferKm. }
    assert (Hobs : forall points features,
      scoreObservations bufferKm points features =
      @scoreObservations Coords Pt skipFailures bufferKm points features).
    { induction points as [|pt rest IH]; intros features; simpl; [done|].
      destruct (turf_point (coordinates (geometry pt))); [|done].
      rewrite IH. f_equal. apply map_ext. intros t. apply Hone. }
    by rewrite <- Hobs.
Qed.

End Malformed.

(** C9 at an input with a malformed point.  The second observation has
    coordinates that [turf.point] rejects.  aggregateByWatershed and
    scoreTrails both end with the exception: the first observation has
    been counted, the third has not, no density and no score has been
    computed.  Skipping the malformed observation would have given the
    results of the two well-formed ones. *)
Theorem malformed_point_aborts_run :
  let aggregated := aggregateByWatershed Planar.ex_watersheds Planar.ex_observations_malformed in
  let scored := scoreTrails CONFIG_analysis Planar.ex_trails
                  (Planar.ex_observations_malformed ++ [Planar.observation 20 (-80)]) None in
  let wellFormed := [Planar.observation 10 10; Planar.observation 4000 4000] in
  (aggregated.2 = Thrown /\
   map (get_prop "obsCount") aggregated.1 = [Fin 1; Fin 0; Fin 0] /\
   map (get_prop "obsDensity") aggregated.1 = [Fin 0; Fin 0; Fin 0]) /\
  ((aggregateByWatershed Planar.ex_watersheds wellFormed).2 = Returned /\
   map (get_prop "obsCount") (aggregateByWatershed Planar.ex_watersheds wellFormed).1
     = [Fin 1; Fin 1; Fin 0] /\
   map (get_prop "obsDensity") (aggregateByWatershed Planar.ex_watersheds wellFormed).1
     = [binary64 (33 # 100); binary64 (1 # 25); Fin 0]) /\
  (scored.2 = Thrown /\
   map (get_prop "obsNearby") scored.1 = [Fin 1; Fin 1; Fin 0] /\
   map (get_prop "scoreNorm") scored.1 = [Fin 0; Fin 0; Fin 0]) /\
  map (get_prop "obsNearby")
    (scoreTrails CONFIG_analysis Planar.ex_trails
       (wellFormed ++ [Planar.observation 20 (-80)]) None).1 = [Fin 2; Fin 1; Fin 0].
Proof.
  repeat split; vm_compute; reflexivity.
Qed.

(** ** Runs on the planar library *)

(** Two overlapping watersheds, given in the order A, B, and one point
    inside both: the point is counted in A only. *)
Example overlap_counts_first_only :
  map (get_prop "obsCount")
    (aggregateByWatershed
       [Planar.rectangle 0 0 3000 1000; Planar.rectangle 0 0 5000 5000]
       [Planar.observation 10 10]).1
  = [Fin 1; Fin 0].
Proof. vm_compute. reflexivity. Qed.

(** One watershed of 1 km2 and three points, two of them inside. *)
Example two_of_three_inside :
  map (fun ws => (get_prop "obsCount" ws, get_prop "obsDensity" ws))
    (aggregateByWatershed
       [Planar.rectangle 0 0 1000 1000]
       [Planar.observation 10 10; Planar.observation 2000 10; Planar.observation 500 500]).1
  = [(Fin 2, Fin 2)].
Proof. vm_compute. reflexivity. Qed.

(** No observation: every count is 0 and the ranking is empty. *)
Example no_observation_no_ranking :
  let aggregated := (aggregateByWatershed Planar.ex_watersheds []).1 in
  map (get_prop "obsCount") aggregated = [Fin 0; Fin 0; Fin 0] /\
  rankWatersheds aggregated = [].
Proof. vm_compute. split; reflexivity. Qed.

(** A watershed of 40 km2 with three observations.  The quotient is the
    binary64 number nearest to 0.075, which is below 0.075, so that the
    density is 0.07. *)
Example density_of_a_decimal_tie :
  map (fun ws => (get_prop "obsCount" ws, get_prop "obsDensity" ws))
    (aggregateByWatershed
       [Planar.rectangle 0 0 8000 5000]
       [Planar.observation 1 1; Planar.observation 2 2; Planar.observation 3 3]).1
  = [(Fin 3, binary64 (7 # 100))].
Proof. vm_compute. reflexivity. Qed.

(** A trail with 3 observations nearby when the maximum is 80: 3 / 80 is
    rounded to a binary64 number below 0.0375 and the score is 0.037. *)
Example score_of_a_decimal_tie :
  map (fun t => (get_prop "obsNearby" t, get_prop "scoreNorm" t))
    (scoreTrails CONFIG_analysis
       [Planar.line [(0, 0)]%Z; Planar.line [(0, 150)]%Z]
       (replicate 77 (Planar.observation 0 0) ++ replicate 3 (Planar.observation 0 75))
       None).1
  = [(Fin 80, Fin 1); (Fin 3, binary64 (37 # 1000))].
Proof. vm_compute. reflexivity. Qed.

(** A watershed whose area is 0 has density 0 whatever its count. *)
Example empty_area_density_zero :
  map (fun ws => (get_prop "obsCount" ws, get_prop "obsDensity" ws))
    (aggregateByWatershed [Planar.rectangle 0 0 1000 0] [Planar.observation 10 0]).1
  = [(Fin 1, Fin 0)].
Proof. vm_compute. reflexivity. Qed.

(** Ranking after the example run with one more observation: the count
    order is non-increasing and the tie keeps the input order. *)
Example ranking_of_the_example :
  map (get_prop "obsCount")
    (rankWatersheds
       (aggregateByWatershed Planar.ex_watersheds
          (Planar.ex_observations ++ [Planar.observation 4500 4500])).1)
  = [Fin 2; Fin 1].
Proof. vm_compute. reflexivity. Qed.

(** * Further properties *)

(** ** Closed forms of the two runs *)

Section ClosedForms.
Context {Coords Pt : Type} `{!Turf Coords Pt}.
Implicit Types (features watersheds trails observations : list (Feature Coords)).

Lemma incr_set_prop key (n : nat) (f : Feature Coords) :
  incr_prop key (set_prop key (num_of_nat n) f) = set_prop key (num_of_nat (S n)) f.
Proof.
  unfold incr_prop. by rewrite get_set_prop, set_set_prop, num_of_nat_succ.
Qed.

Lemma resetWatershed_obsCount (ws : Feature Coords) :
  resetWatershed ws = set_prop "obsCount" (num_of_nat 0) (resetWatershed ws).
Proof.
  unfold resetWatershed. change (num_of_nat 0) with (Fin 0).
  rewrite (set_prop_commute "obsCount" "obsDensity") by done.
  by rewrite set_set_prop.
Qed.

Lemma resetTrail_obsNearby (t : Feature Coords) :
  resetTrail t = set_prop "obsNearby" (num_of_nat 0) (resetTrail t).
Proof.
  unfold resetTrail. change (num_of_nat 0) with (Fin 0).
  rewrite (set_prop_commute "obsNearby" "scoreNorm") by done.
  by rewrite set_set_prop.
Qed.

(** The counting loop writes the count and nothing else. *)
Lemma counting_exact (pts : list Pt) features i (ws0 : Feature Coords) (n : nat) :
  features !! i = Some (set_prop "obsCount" (num_of_nat n) ws0) ->
  foldl (fun fs turfPt => countInFirst turfPt fs) features pts !! i =
  Some (set_prop "obsCount"
          (num_of_nat (n + length (List.filter
             (fun turfPt => bool_decide (firstContaining turfPt features = Some i)) pts)))
          ws0).
Proof.
  revert features n. induction pts as [|p pts IH]; intros features n Hi.
  - simpl. by rewrite Nat.add_0_r.
  - simpl foldl.
    assert (Hgeo : forall q,
      firstContaining q (countInFirst p features) = firstContaining q features).
    { intros q. apply firstContaining_geometry, countInFirst_geometry. }
    simpl List.filter.
    destruct (bool_decide (firstContaining p features = Some i)) eqn:E.
    + apply bool_decide_eq_true in E.
      rewrite (IH (countInFirst p features) (S n)).
      * f_equal. f_equal. f_equal. simpl length.
        rewrite (List.filter_ext _ (fun turfPt => bool_decide (firstContaining turfPt features = Some i)))
          by (intros q; by rewrite Hgeo).
        lia.
      * rewrite countInFirst_firstContaining, E, list_lookup_alter_eq, Hi. simpl.
        by rewrite incr_set_prop.
    + apply bool_decide_eq_false in E.
      rewrite (IH (countInFirst p features) n).
      * f_equal. f_equal. f_equal.
        rewrite (List.filter_ext _ (fun turfPt => bool_decide (firstContaining turfPt features = Some i)))
          by (intros q; by rewrite Hgeo).
        done.
      * rewrite countInFirst_firstContaining.
        destruct (firstContaining p features) as [j|] eqn:Ej; [|done].
        rewrite list_lookup_alter_ne; [done|]. by intros ->.
Qed.

Lemma counted_exact watersheds observations i (ws : Feature Coords) :
  watersheds !! i = Some ws ->
  foldl (fun fs turfPt => countInFirst turfPt fs)
    (map resetWatershed watersheds) (reached observations) !! i =
  Some (set_prop "obsCount" (num_of_nat (assignedTo watersheds observations i))
          (resetWatershed ws)).
Proof.
  intros Hi.
  rewrite (counting_exact (reached observations) (map resetWatershed watersheds)
             i (resetWatershed ws) 0).
  - unfold assignedTo. simpl. f_equal. f_equal. f_equal. f_equal.
    apply List.filter_ext. intros q. f_equal.
    rewrite (firstContaining_geometry q _ watersheds); [done|].
    by rewrite <- list_fmap_compose.
  - by rewrite list_lookup_fmap, Hi, <- resetWatershed_obsCount.
Qed.

(** The watershed of index [i] when aggregateByWatershed ends. *)
Lemma aggregateByWatershed_exact watersheds observations i (ws : Feature Coords) :
  watersheds !! i = Some ws ->
  (aggregateByWatershed watersheds observations).1 !! i =
  let counted :=
    set_prop "obsCount" (num_of_nat (assignedTo watersheds observations i))
      (resetWatershed ws) in
  Some (match loop_outcome observations with
        | Returned => setDensity counted
        | Thrown => counted
        end).
Proof.
  intros Hi. rewrite aggregateByWatershed_unfold. cbv zeta.
  pose proof (counted_exact watersheds observations i ws Hi) as Hc.
  destruct (loop_outcome observations); simpl.
  - by rewrite list_lookup_fmap, Hc.
  - done.
Qed.

Lemma scoring_exact bufferKm (pts : list Pt) (t0 : Feature Coords) (n : nat) :
  foldl (fun t turfPt => scoreNearby bufferKm turfPt t)
    (set_prop "obsNearby" (num_of_nat n) t0) pts =
  set_prop "obsNearby"
    (num_of_nat (n + length (List.filter (fun turfPt => near bufferKm turfPt t0) pts))) t0.
Proof.
  revert n. induction pts as [|p pts IH]; intros n; simpl.
  - by rewrite Nat.add_0_r.
  - rewrite scoreNearby_near.
    assert (near bufferKm p (set_prop "obsNearby" (num_of_nat n) t0) = near bufferKm p t0)
      as -> by done.
    destruct (near bufferKm p t0); simpl.
    + rewrite incr_set_prop, IH. f_equal. f_equal. lia.
    + apply IH.
Qed.

(** The trail of index [j] when scoreTrails ends. *)
Lemma scoredTrails_exact bufferKm trails observations :
  scoredTrails bufferKm trails observations =
  map (fun t => set_prop "obsNearby" (num_of_nat (nearbyOf bufferKm observations t))
                  (resetTrail t)) trails.
Proof.
  unfold scoredTrails. apply map_ext. intros t.
  rewrite (resetTrail_obsNearby t) at 1. by rewrite scoring_exact.
Qed.

Lemma scoreTrails_exact (cfg : Analysis) trails observations bufferMeters :
  scoreTrails cfg trails observations bufferMeters =
  let scored := scoredTrails (bufferKm_of cfg bufferMeters) trails observations in
  match loop_outcome observations with
  | Returned => (map (setScoreNorm (maxObs_of scored)) scored, Returned)
  | Thrown => (scored, Thrown)
  end.
Proof. apply scoreTrails_unfold. Qed.

End ClosedForms.

(** ** What the runs add up to *)

Section Totals.
Context {Coords Pt : Type} `{!Turf Coords Pt}.
Implicit Types (features watersheds trails observations : list (Feature Coords)).

Lemma num_add_of_nat (a b : nat) :
  num_add (num_of_nat a) (num_of_nat b) = num_of_nat (a + b).
Proof.
  unfold num_add, num_of_nat. f_equal. apply Qred_eq_inject_Z.
  by rewrite Nat2Z.inj_add, inject_Z_plus.
Qed.

Lemma total_of_nat (ns : list nat) :
  foldr num_add (Fin 0) (map num_of_nat ns) = num_of_nat (sum_list ns).
Proof.
  induction ns as [|n ns IH]; simpl; [done|]. by rewrite IH, num_add_of_nat.
Qed.

Lemma sum_list_snoc (l : list nat) (n : nat) :
  sum_list (l ++ [n]) = (sum_list l + n)%nat.
Proof. induction l as [|m l IH]; simpl; lia. Qed.

(** Each point is counted under exactly one index, if under any. *)
Lemma sum_list_indicator (j n : nat) :
  sum_list (map (fun i => if bool_decide (Some j = Some i) then 1%nat else 0%nat) (seq 0 n))
  = if bool_decide (j < n)%nat then 1%nat else 0%nat.
Proof.
  induction n as [|n IH]; [done|].
  rewrite seq_S, map_app. cbn [map]. rewrite sum_list_snoc, IH. simpl.
  destruct (decide (j = n)) as [->|Hne].
  - rewrite (bool_decide_eq_true_2 (Some n = Some n)) by done.
    rewrite (bool_decide_eq_false_2 (n < n)%nat) by lia.
    by rewrite (bool_decide_eq_true_2 (n < S n)%nat) by lia.
  - rewrite (bool_decide_eq_false_2 (Some j = Some n)) by congruence.
    repeat case_bool_decide; lia.
Qed.

Lemma sum_list_assigned {A} (f : A -> option nat) (n : nat) (ps : list A) :
  (forall p i, f p = Some i -> (i < n)%nat) ->
  sum_list (map (fun i => length (List.filter (fun p => bool_decide (f p = Some i)) ps))
              (seq 0 n))
  = length (List.filter (fun p => bool_decide (is_Some (f p))) ps).
Proof.
  intros Hlt. induction ps as [|p ps IH]; simpl.
  - induction (seq 0 n) as [|? ? IHs]; simpl; [done|]. by rewrite IHs.
  - transitivity
      (sum_list (map (fun i => if bool_decide (f p = Some i) then 1%nat else 0%nat) (seq 0 n))
       + sum_list (map (fun i => length (List.filter (fun p => bool_decide (f p = Some i)) ps))
                     (seq 0 n)))%nat.
    { clear IH. induction (seq 0 n) as [|i l IHl]; simpl; [done|].
      rewrite IHl. destruct (bool_decide (f p = Some i)); simpl; lia. }
    rewrite IH. destruct (f p) as [j|] eqn:Ej.
    + rewrite sum_list_indicator. rewrite bool_decide_eq_true_2 by eauto.
      rewrite (bool_decide_eq_true_2 (is_Some (Some j))) by eauto. done.
    + rewrite (bool_decide_eq_false_2 (is_Some None)) by (by intros [? ?]).
      rewrite (sum_list_fmap_same 0); [lia|].
      apply Forall_forall. intros i _. by case_bool_decide.
Qed.

Lemma reached_length observations :
  (length (reached observations) <= length observations)%nat.
Proof.
  induction observations as [|pt rest IH]; simpl; [done|].
  destruct (turf_point (coordinates (geometry pt))); simpl; lia.
Qed.

Lemma filter_length_le {A} (p : A -> bool) (l : list A) :
  (length (List.filter p l) <= length l)%nat.
Proof. induction l as [|x l IH]; simpl; [done|]. destruct (p x); simpl; lia. Qed.

Lemma obsCount_aggregate watersheds observations :
  map (get_prop "obsCount") (aggregateByWatershed watersheds observations).1 =
  map num_of_nat (map (assignedTo watersheds observations) (seq 0 (length watersheds))).
Proof.
  apply list_eq. intros i. rewrite !list_lookup_fmap.
  destruct (watersheds !! i) as [ws|] eqn:Hi.
  - rewrite (aggregateByWatershed_exact _ _ _ _ Hi). cbv zeta.
    rewrite lookup_seq_lt by (by eapply lookup_lt_Some). simpl. f_equal.
    destruct (loop_outcome observations);
      rewrite ?get_obsCount_setDensity; apply get_set_prop.
  - rewrite lookup_seq_ge by (by apply lookup_ge_None).
    assert ((aggregateByWatershed watersheds observations).1 !! i = None) as ->; [|done].
    apply lookup_ge_None. rewrite aggregateByWatershed_length. by apply lookup_ge_None.
Qed.

(** X1.  The obsCount of all watersheds add up to the number of processed
    points that some watershed contains: no point is counted twice and no
    contained point is lost.  In particular the total is at most the
    number of observations. *)
Theorem aggregateByWatershed_partition watersheds observations :
  totalOf "obsCount" (aggregateByWatershed watersheds observations).1 =
    num_of_nat (length (List.filter (insideSome watersheds) (reached observations))) /\
  (length (List.filter (insideSome watersheds) (reached observations))
     <= length observations)%nat.
Proof.
  split.
  - unfold totalOf. rewrite obsCount_aggregate, total_of_nat. f_equal.
    unfold assignedTo. apply sum_list_assigned.
    intros p i. apply firstContaining_lt.
  - etrans; [apply filter_length_le|apply reached_length].
Qed.

End Totals.

(** ** What the runs leave alone, and what they do not depend on *)

Section Frame.
Context {Coords Pt : Type} `{!Turf Coords Pt}.
Implicit Types (features watersheds trails observations : list (Feature Coords)).

Lemma properties_set_prop_ne key key' v (f : Feature Coords) :
  key <> key' -> properties (set_prop key' v f) !! key = properties f !! key.
Proof. intros Hne. unfold set_prop. simpl. by rewrite lookup_insert_ne. Qed.

Lemma properties_setDensity key (ws : Feature Coords) :
  key <> "obsDensity" -> properties (setDensity ws) !! key = properties ws !! key.
Proof.
  intros Hne. unfold setDensity.
  destruct (turf_area (geometry ws)); by apply properties_set_prop_ne.
Qed.

(** X2.  aggregateByWatershed keeps the number and order of the
    watersheds, their geometry and every property other than obsCount
    and obsDensity; scoreTrails does the same with obsNearby and
    scoreNorm.  This holds also for a run that ends with an exception. *)
Theorem runs_write_only_their_metrics (cfg : Analysis) watersheds trails observations
    (bufferMeters : option num) :
  (forall i ws, watersheds !! i = Some ws ->
     exists ws',
       (aggregateByWatershed watersheds observations).1 !! i = Some ws' /\
       geometry ws' = geometry ws /\
       forall key, key <> "obsCount" -> key <> "obsDensity" ->
         properties ws' !! key = properties ws !! key) /\
  (forall j t, trails !! j = Some t ->
     exists t',
       (scoreTrails cfg trails observations bufferMeters).1 !! j = Some t' /\
       geometry t' = geometry t /\
       forall key, key <> "obsNearby" -> key <> "scoreNorm" ->
         properties t' !! key = properties t !! key).
Proof.
  split.
  - intros i ws Hi. rewrite (aggregateByWatershed_exact _ _ _ _ Hi). cbv zeta.
    eexists. split; [done|].
    destruct (loop_outcome observations).
    + split; [by rewrite geometry_setDensity|]. intros key H1 H2.
      rewrite properties_setDensity by done.
      unfold resetWatershed. by rewrite !properties_set_prop_ne.
    + split; [done|]. intros key H1 H2.
      unfold resetWatershed. by rewrite !properties_set_prop_ne.
  - intros j t Hj. rewrite scoreTrails_exact, scoredTrails_exact. cbv zeta.
    destruct (loop_outcome observations); simpl;
      rewrite ?list_lookup_fmap, Hj; simpl; (eexists; split; [done|]);
      (split; [done|]); intros key H1 H2; unfold setScoreNorm, resetTrail;
      by rewrite !properties_set_prop_ne.
Qed.

Lemma reached_Permutation observations observations' :
  Permutation observations observations' ->
  forallb accepted observations = true ->
  Permutation (reached observations) (reached observations') /\
  forallb accepted observations' = true.
Proof.
  induction 1 as [|pt l l' Hp IH|pt1 pt2 l|l1 l2 l3 H12 IH12 H23 IH23]; simpl.
  - done.
  - unfold accepted at 1 3. destruct (turf_point (coordinates (geometry pt))); [|done].
    simpl. intros Hl. destruct (IH Hl) as [IH1 IH2]. split; [by constructor|done].
  - unfold accepted at 1 2 4 5.
    destruct (turf_point (coordinates (geometry pt1))),
             (turf_point (coordinates (geometry pt2))); simpl; try done.
    intros Hl. split; [apply perm_swap|done].
  - intros H1. destruct (IH12 H1) as [P12 H2]. destruct (IH23 H2) as [P23 H3].
    split; [by etrans|done].
Qed.

Lemma filter_length_Permutation {A} (p : A -> bool) (l l' : list A) :
  Permutation l l' -> length (List.filter p l) = length (List.filter p l').
Proof.
  induction 1; simpl; try done.
  - destruct (p x); simpl; by rewrite ?IHPermutation.
  - by destruct (p x), (p y).
  - congruence.
Qed.

(** X3.  When [turf.point] accepts every observation, the order of the
    observations does not matter: both runs give the same features for
    any reordering of them. *)
Theorem runs_ignore_observation_order (cfg : Analysis) watersheds trails
    observations observations' (bufferMeters : option num) :
  Permutation observations observations' ->
  forallb accepted observations = true ->
  aggregateByWatershed watersheds observations' =
    aggregateByWatershed watersheds observations /\
  scoreTrails cfg trails observations' bufferMeters =
    scoreTrails cfg trails observations bufferMeters.
Proof.
  intros Hperm Hacc. destruct (reached_Permutation _ _ Hperm Hacc) as [Hr Hacc'].
  assert (Hout : loop_outcome observations' = loop_outcome observations)
    by (unfold loop_outcome; by rewrite Hacc, Hacc').
  split.
  - apply injective_projections; simpl.
    + apply list_eq. intros i.
      destruct (watersheds !! i) as [ws|] eqn:Hi.
      * rewrite !(aggregateByWatershed_exact _ _ _ _ Hi). cbv zeta. rewrite Hout.
        unfold assignedTo. by rewrite (filter_length_Permutation _ _ _ Hr).
      * transitivity (@None (Feature Coords)); [|symmetry];
          apply lookup_ge_None; rewrite aggregateByWatershed_length;
          by apply lookup_ge_None.
    + rewrite !aggregateByWatershed_unfold. cbv zeta. rewrite Hout.
      by destruct (loop_outcome observations).
  - rewrite !scoreTrails_exact, !scoredTrails_exact. cbv zeta. rewrite Hout.
    assert (Hn : forall b t, nearbyOf b observations' t = nearbyOf b observations t).
    { intros b t. unfold nearbyOf. symmetry. by apply filter_length_Permutation. }
    rewrite (map_ext _ _ (fun t => f_equal
               (fun n => set_prop "obsNearby" (num_of_nat n) (resetTrail t))
               (Hn (bufferKm_of cfg bufferMeters) t))).
    done.
Qed.

End Frame.

(** Exchanging the first two example observations changes nothing. *)
Lemma runs_ignore_observation_order_witness :
  aggregateByWatershed Planar.ex_watersheds
    [Planar.observation 4000 4000; Planar.observation 10 10; Planar.observation 9000 9000]
  = aggregateByWatershed Planar.ex_watersheds Planar.ex_observations.
Proof.
  refine (proj1 (runs_ignore_observation_order CONFIG_analysis
                   Planar.ex_watersheds Planar.ex_trails Planar.ex_observations _ None _ _)).
  - apply perm_swap.
  - reflexivity.
Defined.

(** ** Edge cases and monotonicity *)

Section Edges.
Context {Coords Pt : Type} `{!Turf Coords Pt}.
Implicit Types (features watersheds trails observations : list (Feature Coords)).

(** A count of 0 has ratio 0 to any positive number. *)
Lemma zero_ratio (d : nat) (y : num) :
  num_gt y (Fin 0) = true -> unary_plus (toFixed d (num_div (Fin 0) y)) = Fin 0.
Proof.
  intros Hy.
  assert (Hq : num_div (Fin 0) y = Fin 0).
  { destruct y as [| | |b]; [done|done|done|].
    apply (num_lt_Fin 0 b) in Hy. unfold num_div.
    destruct (Qeq_bool b 0) eqn:E.
    { apply Qeq_bool_eq in E. rewrite E in Hy. exfalso. by apply Qlt_irrefl in Hy. }
    rewrite (binary64_comp _ 0); [apply binary64_0|]. apply Qmult_0_l. }
  rewrite Hq, toFixed_zero. apply unary_plus_zero.
Qed.

Lemma setDensity_resetWatershed (ws : Feature Coords) :
  setDensity (resetWatershed ws) = resetWatershed ws.
Proof.
  unfold setDensity.
  assert (Hc : get_prop "obsCount" (resetWatershed ws) = Fin 0).
  { unfold resetWatershed. rewrite get_set_prop_ne by done. apply get_set_prop. }
  assert (Hs : set_prop "obsDensity" (Fin 0) (resetWatershed ws) = resetWatershed ws)
    by apply set_set_prop.
  destruct (turf_area (geometry (resetWatershed ws))) as [area|]; [|done].
  destruct (num_gt (areaKm2_of area) (Fin 0)) eqn:E; [|done].
  by rewrite Hc, zero_ratio.
Qed.

Lemma positive_key_reset key1 key2 (f : Feature Coords) :
  positive_key key1 (set_prop key2 (Fin 0) (set_prop key1 (Fin 0) f)) = false.
Proof.
  unfold positive_key. destruct (decide (key1 = key2)) as [->|Hne].
  - by rewrite get_set_prop.
  - by rewrite get_set_prop_ne, get_set_prop.
Qed.

(** X4.  With no observation both runs return and do nothing but reset
    the metrics to 0, whatever the geometry and the buffer; the rankings
    of the collections they leave are empty. *)
Theorem no_observation_only_resets (cfg : Analysis) watersheds trails
    (bufferMeters : option num) :
  aggregateByWatershed watersheds [] = (map resetWatershed watersheds, Returned) /\
  scoreTrails cfg trails [] bufferMeters = (map resetTrail trails, Returned) /\
  rankWatersheds (map resetWatershed watersheds) = [] /\
  rankTrails (map resetTrail trails) = [].
Proof.
  split; [|split; [|split]].
  - unfold aggregateByWatershed. simpl. f_equal. rewrite List.map_map.
    apply map_ext, setDensity_resetWatershed.
  - rewrite scoreTrails_exact. cbv zeta. unfold loop_outcome. simpl.
    assert (Hs : scoredTrails (bufferKm_of cfg bufferMeters) trails [] = map resetTrail trails)
      by done.
    pose proof (maxObs_of_scoredTrails (bufferKm_of cfg bufferMeters) trails []) as Hm.
    rewrite Hs in *. f_equal. rewrite Hm. rewrite List.map_map. apply map_ext. intros t.
    unfold setScoreNorm.
    assert (get_prop "obsNearby" (resetTrail t) = Fin 0) as ->.
    { unfold resetTrail. rewrite get_set_prop_ne by done. apply get_set_prop. }
    rewrite zero_ratio; [apply set_set_prop|].
    apply (num_lt_of_nat 0).
    pose proof (proj1 (foldr_max_ge 1
      (map (nearbyOf (bufferKm_of cfg bufferMeters) []) trails))). lia.
  - unfold rankWatersheds.
    assert (List.filter (fun f => num_gt (get_prop "obsCount" f) (Fin 0))
              (map resetWatershed watersheds) = []) as ->; [|done].
    induction watersheds as [|ws rest IH]; simpl; [done|].
    pose proof (positive_key_reset "obsCount" "obsDensity" ws) as Hp.
    unfold positive_key in Hp. unfold resetWatershed at 1. by rewrite Hp.
  - unfold rankTrails.
    assert (List.filter (fun f => num_gt (get_prop "obsNearby" f) (Fin 0))
              (map resetTrail trails) = []) as ->; [|done].
    induction trails as [|t rest IH]; simpl; [done|].
    pose proof (positive_key_reset "obsNearby" "scoreNorm" t) as Hp.
    unfold positive_key in Hp. unfold resetTrail at 1. by rewrite Hp.
Qed.

Lemma filter_length_mono {A} (p q : A -> bool) (l : list A) :
  (forall x, p x = true -> q x = true) ->
  (length (List.filter p l) <= length (List.filter q l))%nat.
Proof.
  intros Hpq. induction l as [|x l IH]; simpl; [done|].
  destruct (p x) eqn:Ep.
  - rewrite (Hpq x Ep). simpl. lia.
  - destruct (q x); simpl; lia.
Qed.

Lemma nearbyOf_mono (b1 b2 : num) observations (t : Feature Coords) :
  num_le b1 b2 = true ->
  (nearbyOf b1 observations t <= nearbyOf b2 observations t)%nat.
Proof.
  intros Hb. unfold nearbyOf. apply filter_length_mono. intros p. unfold near.
  destruct (turf_nearestPointOnLine (geometry t) p) as [d|]; [|done].
  intros Hd. by eapply num_le_trans.
Qed.

(** X5.  A larger buffer never lowers a count: if the buffer in effect
    ([bufferMeters || trailBufferMeters]) of one call is at most that of
    another call on the same trails and observations, every trail's
    obsNearby in the first is at most its obsNearby in the second. *)
Theorem scoreTrails_buffer_monotone (cfg : Analysis) trails observations
    (bufferMeters1 bufferMeters2 : option num) (j : nat) (t1 t2 : Feature Coords) :
  num_le (or_default bufferMeters1 (trailBufferMeters cfg))
         (or_default bufferMeters2 (trailBufferMeters cfg)) = true ->
  (scoreTrails cfg trails observations bufferMeters1).1 !! j = Some t1 ->
  (scoreTrails cfg trails observations bufferMeters2).1 !! j = Some t2 ->
  num_le (get_prop "obsNearby" t1) (get_prop "obsNearby" t2) = true.
Proof.
  intros Hb H1 H2.
  destruct (scoreTrails_lookup _ _ _ _ _ _ H1) as (t & Ht & _ & ->).
  destruct (scoreTrails_lookup _ _ _ _ _ _ H2) as (t' & Ht' & _ & ->).
  rewrite Ht in Ht'. injection Ht' as <-.
  apply num_le_of_nat, nearbyOf_mono.
  by apply num_div_1000_mono in Hb.
Qed.

(** X6.  After any run every obsCount and every obsNearby is a whole
    number between 0 and the number of observations. *)
Theorem counts_are_bounded (cfg : Analysis) watersheds trails observations
    (bufferMeters : option num) :
  (forall i ws', (aggregateByWatershed watersheds observations).1 !! i = Some ws' ->
     exists n, get_prop "obsCount" ws' = num_of_nat n /\ (n <= length observations)%nat) /\
  (forall j t', (scoreTrails cfg trails observations bufferMeters).1 !! j = Some t' ->
     exists n, get_prop "obsNearby" t' = num_of_nat n /\ (n <= length observations)%nat).
Proof.
  split.
  - intros i ws' Hi.
    assert (is_Some (watersheds !! i)) as [ws Hws].
    { apply lookup_lt_is_Some. rewrite <- (aggregateByWatershed_length _ observations).
      by eapply lookup_lt_Some. }
    rewrite (aggregateByWatershed_exact _ _ _ _ Hws) in Hi. cbv zeta in Hi.
    injection Hi as <-. exists (assignedTo watersheds observations i). split.
    + destruct (loop_outcome observations);
        rewrite ?get_obsCount_setDensity; apply get_set_prop.
    + unfold assignedTo. etrans; [apply filter_length_le|apply reached_length].
  - intros j t' Hj. destruct (scoreTrails_lookup _ _ _ _ _ _ Hj) as (t & _ & _ & ->).
    eexists. split; [done|]. unfold nearbyOf.
    etrans; [apply filter_length_le|apply reached_length].
Qed.

End Edges.

(** ** Tiers, colours and the legend *)

Section Tiers.
Context {Coords : Type}.

Lemma classifyFrom_le (breaks : list num) (count : num) (k : nat) :
  (classifyFrom breaks count k <= k)%nat.
Proof.
  destruct k; [done|]. pose proof (classifyFrom_lt breaks count (S k)). lia.
Qed.

Lemma classifyFrom_mono (breaks : list num) (count count' : num) (k : nat) :
  num_le count count' = true ->
  (classifyFrom breaks count k <= classifyFrom breaks count' k)%nat.
Proof.
  intros Hle. induction k as [|i IH]; simpl; [done|].
  destruct (num_ge count (to_number (breaks !! i))) eqn:E.
  - unfold num_ge in *. by rewrite (num_le_trans _ _ _ E Hle).
  - destruct (num_ge count' (to_number (breaks !! i))); [|done].
    apply classifyFrom_le.
Qed.

(** X7.  A larger count is never put in a lower tier, whatever the
    breakpoints are. *)
Theorem classifyDensity_monotone (cfg : Analysis) (count count' : num) :
  num_le count count' = true ->
  (classifyDensity cfg count <= classifyDensity cfg count')%nat.
Proof. intros Hle. by apply classifyFrom_mono. Qed.

Lemma classifyDensity_lt (cfg : Analysis) (count : num) :
  densityBreaks cfg <> [] ->
  (classifyDensity cfg count < length (densityBreaks cfg))%nat.
Proof.
  intros Hne. apply classifyFrom_lt. destruct (densityBreaks cfg); [done|simpl; lia].
Qed.

Lemma classifyDensity_NaN (cfg : Analysis) : classifyDensity cfg NaN = 0%nat.
Proof.
  unfold classifyDensity. apply classifyFrom_miss. intros j _.
  unfold num_ge. by destruct (to_number (densityBreaks cfg !! j)).
Qed.

(** X8.  When the colour table has at least as many entries as there are
    breakpoints, and at least one, getDensityColor returns a colour for
    every count, NaN included, and so the fill colour of
    watershedChoroplethStyle is never undefined; a watershed without
    obsCount is coloured as a count of 0, and a count of NaN gets the
    first colour. *)
Theorem getDensityColor_defined (cfg : Config) (count : num) (feature : Feature Coords) :
  (length (densityBreaks (analysis cfg)) <= length (densityColors cfg))%nat ->
  densityColors cfg <> [] ->
  is_Some (getDensityColor cfg count) /\
  is_Some (MapStyles.ws_fillColor (MapStyles.watershedChoroplethStyle cfg feature)) /\
  (properties feature !! "obsCount" = None ->
   MapStyles.ws_fillColor (MapStyles.watershedChoroplethStyle cfg feature) =
   getDensityColor cfg (Fin 0)) /\
  getDensityColor cfg NaN = densityColors cfg !! 0%nat.
Proof.
  intros Hlen Hne.
  assert (Hdef : forall c, is_Some (getDensityColor cfg c)).
  { intros c. unfold getDensityColor. apply lookup_lt_is_Some.
    destruct (densityBreaks (analysis cfg)) as [|b bs] eqn:Hb.
    - unfold classifyDensity. rewrite Hb. simpl.
      destruct (densityColors cfg); [done|simpl; lia].
    - pose proof (classifyDensity_lt (analysis cfg) c) as Hlt.
      rewrite Hb in Hlt. specialize (Hlt ltac:(done)). simpl in *. lia. }
  split; [apply Hdef|]. split; [apply Hdef|]. split.
  - intros Hmiss. unfold MapStyles.watershedChoroplethStyle. simpl. by rewrite Hmiss.
  - unfold getDensityColor. by rewrite classifyDensity_NaN.
Qed.





End Tiers.

Lemma getDensityColor_defined_witness :
  is_Some (getDensityColor CONFIG_full (fin_Z 42)).
Proof.
  refine (proj1 (getDensityColor_defined (Coords := Planar.Coords) CONFIG_full (fin_Z 42)
                   (Planar.rectangle 0 0 1 1) _ _)).
  - simpl. lia.
  - done.
Defined.


(** ** How scored trails are drawn *)

Section TrailStyles.
Context {Coords Pt : Type} `{!Turf Coords Pt}.
Implicit Types (features trails observations : list (Feature Coords)).




(** X11.  The stars of the trail popup and the colour of the trail line
    are cut at the same scores 0.25, 0.5 and 0.75, but on opposite sides:
    for a positive score the colour is entry [stars + 1] of the colour
    table, except at exactly 0.25, 0.5 and 0.75, where it is entry
    [stars + 2]; a score that is 0, negative, NaN or missing shows no
    star and the first colour. *)
Theorem stars_and_colour_bands (cfg : Config) (feature : Feature Coords) :
  let score := or_default (properties feature !! "scoreNorm") (Fin 0) in
  let stars := MapStyles.trailPopup_stars feature in
  let atCut := num_eqb score (Fin 0.25) || num_eqb score (Fin 0.5)
               || num_eqb score (Fin 0.75) in
  (num_gt score (Fin 0) = false ->
   stars = 0%nat /\ getTrailColor cfg score = trailScoreColors cfg !! 0%nat) /\
  (num_gt score (Fin 0) = true -> atCut = false ->
   getTrailColor cfg score = trailScoreColors cfg !! (stars + 1)%nat) /\
  (atCut = true ->
   getTrailColor cfg score = trailScoreColors cfg !! (stars + 2)%nat).
Proof.
  intros score stars atCut. subst stars atCut.
  unfold MapStyles.trailPopup_stars. fold score. cbv zeta.
  assert (Hscore : score <> NaN).
  { unfold score, or_default.
    destruct (properties feature !! "scoreNorm") as [[| | |q]|]; simpl; try done.
    by destruct (Qeq_bool q 0). }
  unfold getTrailColor. cbv zeta.
  destruct score as [| | |q]; [done|by repeat split|by repeat split|].
  unfold num_eqb, num_gt, num_lt, num_le.
  destruct (Qle_bool q 0) eqn:E0, (Qle_bool 0 q) eqn:E0',
           (Qle_bool 0.25 q) eqn:E1, (Qle_bool q 0.25) eqn:E1',
           (Qle_bool 0.5 q) eqn:E2, (Qle_bool q 0.5) eqn:E2',
           (Qle_bool 0.75 q) eqn:E3, (Qle_bool q 0.75) eqn:E3';
    simpl; (split; [|split]); intros; try done;
    exfalso;
    rewrite ?Qle_bool_iff, ?Qle_bool_false in *; lra.
Qed.

End TrailStyles.

(** ** Rankings and the results panel *)

Section Panel.
Context {Coords : Type}.
Implicit Types (features : list (Feature Coords)) (key : string).

Lemma num_ge_sub_not_gt (a b : num) :
  num_ge a b = true -> num_gt (num_sub b a) (Fin 0) = false.
Proof.
  unfold num_ge, num_gt, num_sub, num_le, num_lt, num_add, num_neg.
  destruct a, b; try done.
  rewrite negb_false_iff, !Qle_bool_iff, !Qred_correct. lra.
Qed.

(** Sorting a list that is already in order returns it. *)
Lemma Array_sort_sorted_id key features :
  StronglySorted (fun a b => num_ge (get_prop key a) (get_prop key b) = true) features ->
  Array_sort (fun a b => num_sub (get_prop key b) (get_prop key a)) features = features.
Proof.
  induction 1 as [|x l Hs IH Hall]; simpl; [done|]. rewrite IH.
  destruct l as [|y l]; simpl; [done|].
  apply Forall_cons in Hall as [Hxy _]. by rewrite (num_ge_sub_not_gt _ _ Hxy).
Qed.

Lemma filter_all {A} (p : A -> bool) (l : list A) :
  List.Forall (fun x => p x = true) l -> List.filter p l = l.
Proof. induction 1 as [|x l Hx _ IH]; simpl; [done|]. by rewrite Hx, IH. Qed.

Lemma ranked_all_positive key features (ranked : list (Feature Coords)) :
  ranked_by key features ranked ->
  List.Forall (fun f => positive_key key f = true) ranked.
Proof.
  intros (Hperm & _ & _). apply List.Forall_forall. intros f Hf.
  eapply Permutation_in in Hf; [|exact Hperm].
  by apply List.filter_In in Hf as [_ Hf].
Qed.

Lemma rank_idempotent key features :
  let rank := fun l =>
    Array_sort (fun a b => num_sub (get_prop key b) (get_prop key a))
      (List.filter (positive_key key) l) in
  rank (rank features) = rank features.
Proof.
  intros rank. subst rank. cbv beta.
  pose proof (rank_is_ranked_by key features) as Hr.
  rewrite (filter_all _ _ (ranked_all_positive _ _ _ Hr)).
  apply Array_sort_sorted_id. apply Hr.
Qed.

(** X13.  Ranking a ranking changes nothing: rankWatersheds and
    rankTrails return their argument when it is one of their results. *)
Theorem ranking_is_idempotent (watersheds trails : list (Feature Coords)) :
  rankWatersheds (rankWatersheds watersheds) = rankWatersheds watersheds /\
  rankTrails (rankTrails trails) = rankTrails trails.
Proof.
  split; [apply (rank_idempotent "obsCount")|apply (rank_idempotent "obsNearby")].
Qed.



End Panel.

Section PanelAfterRuns.
Context {Coords Pt : Type} `{!Turf Coords Pt}.
Implicit Types (features watersheds trails observations : list (Feature Coords)).




Lemma positive_le_sum key features (ns : list nat) :
  map (get_prop key) features = map num_of_nat ns ->
  (length (List.filter (positive_key key) features) <= sum_list ns)%nat.
Proof.
  revert ns. induction features as [|f l IH]; intros [|n ns]; simpl; try done.
  intros [= Hn Hl]. specialize (IH ns Hl). unfold positive_key at 1. rewrite Hn.
  destruct (num_gt (num_of_nat n) (Fin 0)) eqn:E; simpl; [|lia].
  apply (num_lt_of_nat 0 n) in E. lia.
Qed.

(** X14.  After aggregateByWatershed the ranking of the watersheds has at
    most as many entries as there are observations, and as there are
    watersheds: a point makes at most one watershed appear in it. *)
Theorem ranked_watersheds_bounded watersheds observations :
  let ranked := rankWatersheds (aggregateByWatershed watersheds observations).1 in
  (length ranked <= length observations)%nat /\
  (length ranked <= length watersheds)%nat.
Proof.
  intros ranked. subst ranked.
  pose proof (rank_is_ranked_by "obsCount" (aggregateByWatershed watersheds observations).1)
    as (Hperm & _ & _).
  apply Permutation_length in Hperm. unfold rankWatersheds.
  change (fun f : Feature Coords => num_gt (get_prop "obsCount" f) (Fin 0))
    with (@positive_key Coords "obsCount").
  rewrite Hperm. split.
  - etrans; [apply positive_le_sum, obsCount_aggregate|].
    unfold assignedTo.
    rewrite (sum_list_assigned _ (length watersheds))
      by (intros p i; apply firstContaining_lt).
    etrans; [apply filter_length_le|apply reached_length].
  - etrans; [apply filter_length_le|]. by rewrite aggregateByWatershed_length.
Qed.

End PanelAfterRuns.

(** ** Paging *)

Section PagingFacts.
Context {Observation : Type}.
Variable fetchPage : nat -> completion (list Observation).
Variables perPage maxPages : nat.






End PagingFacts.

(** ** Adding watersheds and trails *)

Section Appending.
Context {Coords Pt : Type} `{!Turf Coords Pt}.
Implicit Types (features watersheds trails observations : list (Feature Coords)).

Lemma firstContaining_app_eq (turfPt : Pt) watersheds more :
  firstContaining turfPt (watersheds ++ more) =
  match firstContaining turfPt watersheds with
  | Some i => Some i
  | None => (fun k => length watersheds + k)%nat <$> firstContaining turfPt more
  end.
Proof.
  induction watersheds as [|ws rest IH]; simpl.
  - by destruct (firstContaining turfPt more).
  - destruct (contains turfPt ws); [done|]. rewrite IH.
    destruct (firstContaining turfPt rest); [done|].
    by destruct (firstContaining turfPt more).
Qed.

Lemma firstContaining_app (turfPt : Pt) watersheds more i :
  (i < length watersheds)%nat ->
  firstContaining turfPt (watersheds ++ more) = Some i <->
  firstContaining turfPt watersheds = Some i.
Proof.
  intros Hi. rewrite firstContaining_app_eq.
  destruct (firstContaining turfPt watersheds) as [k|]; [done|].
  destruct (firstContaining turfPt more) as [k|]; simpl; [|done].
  split; [intros [= E]; lia|done].
Qed.

(** X17.  Watersheds appended to the collection take nothing from the
    ones before them: each earlier watershed ends with the same
    properties as without the appended ones.  A trail's obsNearby does
    not depend on the other trails of the collection at all. *)
Theorem earlier_watersheds_unaffected (cfg : Analysis) watersheds more trails trails'
    observations (bufferMeters : option num) (i j j' : nat) (t : Feature Coords) :
  (i < length watersheds)%nat ->
  trails !! j = Some t -> trails' !! j' = Some t ->
  (aggregateByWatershed (watersheds ++ more) observations).1 !! i =
    (aggregateByWatershed watersheds observations).1 !! i /\
  get_prop "obsNearby" <$> (scoreTrails cfg trails observations bufferMeters).1 !! j =
  get_prop "obsNearby" <$> (scoreTrails cfg trails' observations bufferMeters).1 !! j'.
Proof.
  intros Hi Hj Hj'. split.
  - destruct (lookup_lt_is_Some_2 watersheds i Hi) as [ws Hws].
    rewrite (aggregateByWatershed_exact watersheds _ _ _ Hws).
    rewrite (aggregateByWatershed_exact (watersheds ++ more) _ i ws)
      by (by rewrite lookup_app_l).
    cbv zeta. unfold assignedTo.
    rewrite (List.filter_ext
               (fun turfPt => bool_decide (firstContaining turfPt (watersheds ++ more) = Some i))
               (fun turfPt => bool_decide (firstContaining turfPt watersheds = Some i))); [done|].
    intros p. apply bool_decide_ext. by apply firstContaining_app.
  - destruct (scoreTrails_lookup_of cfg trails observations bufferMeters j t Hj)
      as (t1 & -> & _ & H1).
    destruct (scoreTrails_lookup_of cfg trails' observations bufferMeters j' t Hj')
      as (t2 & -> & _ & H2).
    simpl. by rewrite H1, H2.
Qed.

End Appending.

(** ** The names given by the loader *)

Section Names.
Import DataLoader.

Lemma underscoresToSpaces_clean (s : list Ascii.ascii) :
  "_"%char ∉ underscoresToSpaces s.
Proof.
  unfold underscoresToSpaces. induction s as [|c s IH]; simpl; [by intros ?%elem_of_nil|].
  intros [Hc|Hin]%elem_of_cons; [|done].
  destruct (Ascii.eqb c "_") eqn:E; [done|].
  apply Ascii.eqb_neq in E. done.
Qed.

(** X16.  For a file named [Trails_<x>.geojson] the watershed name given
    to its trails is <x> with every underscore replaced by a space; for
    any file name the result contains no underscore.  The name a trail
    ends with is never empty, and is its own [name] when it has a
    non-empty one. *)
Theorem loader_names (x filename own watershed : list Ascii.ascii)
    (properties : gmap string (list Ascii.ascii)) :
  watershedName (chars "Trails_" ++ x ++ chars ".geojson") = underscoresToSpaces x /\
  ("_"%char ∉ watershedName filename) /\
  trailName properties watershed <> [] /\
  (properties !! "name" = Some own -> own <> [] -> trailName properties watershed = own).
Proof.
  split; [|split; [apply underscoresToSpaces_clean|split]].
  - unfold watershedName. f_equal.
    unfold removePrefix. rewrite decide_True by (by apply prefix_app_r).
    rewrite drop_app_length.
    unfold removeSuffix. rewrite decide_True by (by apply suffix_app_r).
    rewrite length_app, Nat.add_sub. apply take_app_length.
  - unfold trailName, or_string.
    repeat (match goal with
            | |- context [match ?o with Some _ => _ | None => _ end] => destruct o as [[|? ?]|]
            end; try done).
  - intros Hn Hown. unfold trailName. rewrite Hn. by destruct own.
Qed.

End Names.

(** ** The further properties on examples *)

Lemma runs_write_only_their_metrics_witness :
  exists ws',
    (aggregateByWatershed Planar.ex_watersheds Planar.ex_observations).1 !! 0%nat = Some ws' /\
    geometry ws' = geometry (Planar.rectangle 0 0 3000 1000).
Proof.
  destruct (proj1 (runs_write_only_their_metrics CONFIG_analysis Planar.ex_watersheds
                     Planar.ex_trails Planar.ex_observations None)
              0%nat (Planar.rectangle 0 0 3000 1000) eq_refl) as (ws' & H1 & H2 & _).
  exists ws'. split; [exact H1|exact H2].
Defined.

Lemma scoreTrails_buffer_monotone_witness :
  exists t1 t2,
    (scoreTrails CONFIG_analysis Planar.ex_trails Planar.ex_observations
       (Some (fin_Z 30))).1 !! 1%nat = Some t1 /\
    (scoreTrails CONFIG_analysis Planar.ex_trails Planar.ex_observations
       (Some (fin_Z 100))).1 !! 1%nat = Some t2 /\
    num_le (get_prop "obsNearby" t1) (get_prop "obsNearby" t2) = true.
Proof.
  destruct ((scoreTrails CONFIG_analysis Planar.ex_trails Planar.ex_observations
               (Some (fin_Z 30))).1 !! 1%nat) as [t1|] eqn:E1; [|by vm_compute in E1].
  destruct ((scoreTrails CONFIG_analysis Planar.ex_trails Planar.ex_observations
               (Some (fin_Z 100))).1 !! 1%nat) as [t2|] eqn:E2; [|by vm_compute in E2].
  exists t1, t2. split; [done|]. split; [done|].
  exact (scoreTrails_buffer_monotone CONFIG_analysis Planar.ex_trails Planar.ex_observations
           (Some (fin_Z 30)) (Some (fin_Z 100)) 1 t1 t2 eq_refl E1 E2).
Defined.

Lemma counts_are_bounded_witness :
  exists ws' n,
    (aggregateByWatershed Planar.ex_watersheds Planar.ex_observations).1 !! 1%nat = Some ws' /\
    get_prop "obsCount" ws' = num_of_nat n /\ (n <= 3)%nat.
Proof.
  destruct ((aggregateByWatershed Planar.ex_watersheds Planar.ex_observations).1 !! 1%nat)
    as [ws'|] eqn:E; [|by vm_compute in E].
  destruct (proj1 (counts_are_bounded CONFIG_analysis Planar.ex_watersheds Planar.ex_trails
                     Planar.ex_observations None) 1%nat ws' E) as (n & Hn & Hle).
  exists ws', n. split; [done|]. split; [exact Hn|exact Hle].
Defined.

Lemma classifyDensity_monotone_witness :
  (classifyDensity CONFIG_analysis (fin_Z 3) <= classifyDensity CONFIG_analysis (fin_Z 42))%nat.
Proof.
  apply (classifyDensity_monotone CONFIG_analysis (fin_Z 3) (fin_Z 42)). reflexivity.
Defined.


Lemma stars_and_colour_bands_witness :
  getTrailColor CONFIG_full
    (or_default (properties (set_prop "scoreNorm" (Fin 0.5) (Planar.line [])) !! "scoreNorm")
       (Fin 0))
  = trailScoreColors CONFIG_full
      !! (MapStyles.trailPopup_stars (set_prop "scoreNorm" (Fin 0.5) (Planar.line [])) + 2)%nat.
Proof.
  apply (proj2 (proj2 (stars_and_colour_bands CONFIG_full
                         (set_prop "scoreNorm" (Fin 0.5) (Planar.line []))))).
  vm_compute. reflexivity.
Defined.



Lemma loader_names_witness :
  DataLoader.trailName {[ "name" := DataLoader.chars "Ridge" ]} (DataLoader.chars "Saco River")
  = DataLoader.chars "Ridge".
Proof.
  apply (proj2 (proj2 (proj2 (loader_names [] [] (DataLoader.chars "Ridge")
                                (DataLoader.chars "Saco River")
                                {[ "name" := DataLoader.chars "Ridge" ]})))).
  - reflexivity.
  - discriminate.
Defined.

Lemma earlier_watersheds_unaffected_witness :
  (aggregateByWatershed (Planar.ex_watersheds ++ [Planar.rectangle 0 0 9000 9000])
     Planar.ex_observations).1 !! 0%nat =
  (aggregateByWatershed Planar.ex_watersheds Planar.ex_observations).1 !! 0%nat.
Proof.
  refine (proj1 (earlier_watersheds_unaffected CONFIG_analysis Planar.ex_watersheds
                   [Planar.rectangle 0 0 9000 9000] Planar.ex_trails Planar.ex_trails
                   Planar.ex_observations None 0 0 0 (Planar.line [(0, 0); (1000, 0)]%Z)
                   _ eq_refl eq_refl)).
  simpl. lia.
Defined.
